(** * Order-management service (src/app.py): model and verified properties

    The service is a Flask application over three SQLAlchemy tables
    (customer, order, item) whose request bodies are checked by marshmallow
    schemas.  The development below embeds

    - JSON values and Python dictionaries ([json], [dict]);
    - the schema declarations, with marshmallow's [Schema.load] and
      [Schema.dump] as far as the view functions use them;
    - the persisted state ([db]) with the column constraints the models
      declare;
    - the nine view functions, as state-passing functions
      [db -> ... -> db * response];

    and then proves the properties of the order life cycle.

    Conventions.  A path parameter [<id>] is represented by the integer it
    denotes; a parameter that is no integer literal is outside the model.
    The database engine is one that enforces the column types the models
    declare (32-bit [Integer] keys, the lengths of the [String] columns).
    The sequences that number the rows are not bounded here: a statement
    that looks a new row up by its key assumes that the key admits it.
    The order states are the literals of the source:
    "Solicitada" (called Requested in the specification), "Aprobada"
    (Approved) and "Anulada" (Rejected). *)

From Stdlib Require Import ZArith List String Ascii Bool Lia.
From Stdlib Require Import Permutation DecimalString.
Import ListNotations.

Set Warnings "-register-all".
Open Scope string_scope.
Open Scope Z_scope.
Open Scope list_scope.

(* ================================================================== *)
(** * JSON values and dictionaries *)
(* ================================================================== *)

(** What [request.json] can hold and what [jsonify] is given.  A number
    written with a fraction is kept as the decimal [mantissa * 10^exponent];
    the service stores and returns numbers and never computes with them. *)
Inductive json : Type :=
  | JNull
  | JBool (b : bool)
  | JInt (n : Z)
  | JFloat (mantissa exponent : Z)
  | JStr (s : string)
  | JList (l : list json)
  | JDict (d : list (string * json)).

(** [==] on strings. *)
Infix "==" := String.eqb (at level 70, no associativity).

(** A byte that continues a character of a UTF-8 string. *)
Definition is_continuation (c : ascii) : bool :=
  (128 <=? nat_of_ascii c)%nat && (nat_of_ascii c <? 192)%nat.

(** [len(s)]: the number of characters of a string, which is held here
    as its UTF-8 bytes. *)
Fixpoint len (s : string) : nat :=
  match s with
  | EmptyString => 0%nat
  | String.String c s' => ((if is_continuation c then 0 else 1) + len s')%nat
  end.

(** [str(n)]. *)
Definition decimal (n : nat) : string :=
  NilEmpty.string_of_uint (Nat.to_uint n).

(** A Python [dict] with string keys, in insertion order. *)
Definition dict : Type := list (string * json).

(** [d[k]]; [None] stands for [KeyError]. *)
Fixpoint dict_get (d : dict) (k : string) : option json :=
  match d with
  | [] => None
  | (k', v) :: d' => if k == k' then Some v else dict_get d' k
  end.

Definition keys (d : dict) : list string := map fst d.

(** Keys of a dictionary are pairwise distinct. *)
Definition is_dict (d : dict) : Prop := NoDup (keys d).

Definition json_eq_dec : forall a b : json, {a = b} + {a <> b}.
Proof.
  fix rec 1.
  decide equality;
    try solve [apply Z.eq_dec | apply Bool.bool_dec | apply string_dec].
  - apply list_eq_dec, rec.
  - apply list_eq_dec. decide equality. apply string_dec.
Defined.

(** [==] on JSON values. *)
Definition json_eqb (a b : json) : bool :=
  if json_eq_dec a b then true else false.

(** The number of elements of a JSON array ([None] for anything else). *)
Definition json_len (j : json) : option nat :=
  match j with
  | JList l => Some (List.length l)
  | _ => None
  end.

(** Member [k] of a JSON object ([None] when [j] is no object or lacks
    the key). *)
Definition member (k : string) (j : json) : option json :=
  match j with
  | JDict d => dict_get d k
  | _ => None
  end.

(** Follows a path of object keys and array indices downwards. *)
Fixpoint at_path (p : list (string + nat)) (j : json) : option json :=
  match p with
  | [] => Some j
  | inl k :: p' =>
      match member k j with
      | Some j' => at_path p' j'
      | None => None
      end
  | inr n :: p' =>
      match j with
      | JList l =>
          match nth_error l n with
          | Some j' => at_path p' j'
          | None => None
          end
      | _ => None
      end
  end.

(** [occurs k j]: some object inside [j], at any depth, has the key [k]. *)
Fixpoint occurs (k : string) (j : json) : bool :=
  match j with
  | JList l =>
      (fix any (l : list json) : bool :=
         match l with
         | [] => false
         | x :: l' => occurs k x || any l'
         end) l
  | JDict d =>
      (fix any (d : list (string * json)) : bool :=
         match d with
         | [] => false
         | (k', v) :: d' => String.eqb k k' || occurs k v || any d'
         end) d
  | _ => false
  end.

(* ================================================================== *)
(** * Validation: marshmallow schemas *)
(* ================================================================== *)

(** The three checks whose definition lives in the validation library
    and in Python's standard library: the e-mail pattern of
    [validate.Email], [strptime] with a format, and the conversion to
    [float]. *)
Class Validators : Type := {
  valid_email : string -> bool;
  valid_date : string -> json -> bool;
  valid_float : json -> bool
}.

(** A field of a schema, with the arguments the declarations of this
    service give.  [Inferred] is a name listed in [Meta.fields] that has no
    declaration of its own. *)
Module fields.
Inductive t : Type :=
  | String (required : bool) (min : option nat)
  | Email
  | Date (format : string) (required : bool)
  | Float (required : bool)
  | Inferred
  | Nested (schema : list (string * t)).
End fields.

Definition field : Type := fields.t.

Definition schema : Type := list (string * field).

Definition required_of (f : field) : bool :=
  match f with
  | fields.String r _ | fields.Date _ r | fields.Float r => r
  | fields.Email | fields.Inferred | fields.Nested _ => false
  end.

(** Lines 65-74. *)
Definition CustomerSchema : schema :=
  [ ("id", fields.Inferred);
    ("name", fields.String true (Some 3%nat));
    ("email", fields.Email);
    ("phone", fields.String true (Some 10%nat));
    ("address", fields.String true None);
    ("nationality", fields.String true None) ].

(** Lines 78-84. *)
Definition OrderSchema : schema :=
  [ ("id", fields.Inferred);
    ("customer_id", fields.Inferred);
    ("date", fields.Date "%Y-%m-%d" true);
    ("state", fields.Inferred);
    ("customer", fields.Nested CustomerSchema) ].

(** Lines 86-93. *)
Definition ItemSchema : schema :=
  [ ("id", fields.Inferred);
    ("order_id", fields.Inferred);
    ("width", fields.Float true);
    ("length", fields.Float true);
    ("order", fields.Nested OrderSchema) ].

Definition messages (m : string) : json := JList [JStr m].

(** Keys of the input that the schema does not know: marshmallow 3
    rejects them ([unknown = RAISE] is its default). *)
Definition unknown_errors (names : list string) (data : dict) : dict :=
  flat_map
    (fun kv : string * json =>
       if existsb (String.eqb (fst kv)) names then []
       else [(fst kv, messages "Unknown field.")])
    data.

Section Load.
Context {V : Validators}.

(** The length check of [validate.Length(min=n)]. *)
Definition length_error (min : option nat) (s : string) : option json :=
  match min with
  | Some n =>
      if (len s <? n)%nat
      then Some (messages ("Shorter than minimum length " ++ decimal n ++ "."))
      else None
  | None => None
  end.

(** [Field.deserialize]: the error of one field, if any.  [raw] is
    [data.get(name)]; with [partial] a missing field is skipped. *)
Fixpoint field_error (f : field) (partial : bool) (raw : option json)
  {struct f} : option json :=
  match raw with
  | None =>
      if required_of f && negb partial
      then Some (messages "Missing data for required field.")
      else None
  | Some JNull => Some (messages "Field may not be null.")
  | Some v =>
      match f with
      | fields.String _ min =>
          match v with
          | JStr s => length_error min s
          | _ => Some (messages "Not a valid string.")
          end
      | fields.Email =>
          match v with
          | JStr s =>
              if valid_email s then None
              else Some (messages "Not a valid email address.")
          | _ => Some (messages "Not a valid string.")
          end
      | fields.Date format _ =>
          if valid_date format v then None
          else Some (messages "Not a valid date.")
      | fields.Float _ =>
          if valid_float v then None
          else Some (messages "Not a valid number.")
      | fields.Inferred => None
      | fields.Nested fields =>
          match v with
          | JDict data =>
              let declared :=
                (fix each (fs : list (string * field)) : dict :=
                   match fs with
                   | [] => []
                   | (name, f') :: fs' =>
                       match field_error f' partial (dict_get data name) with
                       | Some e => (name, e) :: each fs'
                       | None => each fs'
                       end
                   end) fields in
              match declared ++ unknown_errors (map fst fields) data with
              | [] => None
              | errs => Some (JDict errs)
              end
          | _ => Some (JDict [("_schema", messages "Invalid input type.")])
          end
      end
  end.

(** The errors of the declared fields of a schema, in declaration
    order. *)
Fixpoint declared_errors (s : schema) (partial : bool) (data : dict)
  : dict :=
  match s with
  | [] => []
  | (name, f) :: s' =>
      match field_error f partial (dict_get data name) with
      | Some e => (name, e) :: declared_errors s' partial data
      | None => declared_errors s' partial data
      end
  end.

(** [schema.load(data, partial=partial)]: the [messages] of the
    [ValidationError] it raises; the empty dictionary when it returns.
    The view functions use [load] only for this. *)
Definition load_errors (s : schema) (partial : bool) (data : dict) : dict :=
  declared_errors s partial data ++ unknown_errors (map fst s) data.

End Load.

(* ================================================================== *)
(** * Persistence: the three models and the store *)
(* ================================================================== *)

(** An exception that no view function catches: a missing key of the
    body, and the two errors of the database driver, for a constraint that
    is violated and for a value that its column type cannot hold. *)
Inductive exception : Type :=
  | KeyError (key : string)
  | IntegrityError
  | DataError.

(** Lines 19-33.  A column holds what the view function assigned to the
    attribute; what a read gives back is part of the serialization below.
    The relationship [orders] is the query [orders_of]. *)
Module Customer.
Record t : Type := mk {
  id : Z;
  name : json;
  email : json;
  phone : json;
  address : json;
  nationality : json
}.
End Customer.

(** Lines 35-47.  [state] is only ever assigned a string literal. *)
Module Order.
Record t : Type := mk {
  id : Z;
  customer_id : Z;
  date : json;
  state : string
}.
End Order.

(** Lines 49-59. *)
Module Item.
Record t : Type := mk {
  id : Z;
  order_id : Z;
  width : json;
  length : json
}.
End Item.

(** The committed content of the database: the rows of each table in
    insertion order, and the next value of each primary-key sequence. *)
Record db : Type := mkdb {
  customers : list Customer.t;
  orders : list Order.t;
  items : list Item.t;
  next_customer : Z;
  next_order : Z;
  next_item : Z
}.

(** [db.create_all()] on a fresh database. *)
Definition create_all : db := mkdb [] [] [] 1 1 1.

(** What a column of type [Integer] can hold and be compared with. *)
Definition in_range (id : Z) : bool :=
  (-2147483648 <=? id) && (id <=? 2147483647).

(** [Customer.query.filter_by(id=id).first()]: the comparison with the
    key raises [DataError] for a parameter out of the key's range. *)
Definition first_customer (s : db) (id : Z) : exception + option Customer.t :=
  if in_range id
  then inr (find (fun c => Customer.id c =? id) (customers s))
  else inl DataError.

(** [Order.query.filter_by(id=id).first()]. *)
Definition first_order (s : db) (id : Z) : exception + option Order.t :=
  if in_range id
  then inr (find (fun o => Order.id o =? id) (orders s))
  else inl DataError.

(** The customer that the query returns, when it returns one. *)
Definition query_customer (s : db) (id : Z) : option Customer.t :=
  match first_customer s id with
  | inr found => found
  | inl _ => None
  end.

(** The order that the query returns, when it returns one. *)
Definition query_order (s : db) (id : Z) : option Order.t :=
  match first_order s id with
  | inr found => found
  | inl _ => None
  end.

(** The relationship [Customer.orders]. *)
Definition orders_of (s : db) (id : Z) : list Order.t :=
  filter (fun o => Order.customer_id o =? id) (orders s).

(** The relationship [Order.items]. *)
Definition items_of (s : db) (id : Z) : list Item.t :=
  filter (fun i => Item.order_id i =? id) (items s).

(** [Customer.query.filter(col == v).first() is not None]. *)
Definition taken (col : Customer.t -> json) (v : json)
  (rows : list Customer.t) : bool :=
  existsb (fun c => json_eqb (col c) v) rows.

Definition is_null (v : json) : bool :=
  match v with
  | JNull => true
  | _ => false
  end.

(** [nullable=False] on the five data columns of a customer. *)
Definition customer_not_null (c : Customer.t) : bool :=
  negb (is_null (Customer.name c)) && negb (is_null (Customer.email c))
  && negb (is_null (Customer.phone c)) && negb (is_null (Customer.address c))
  && negb (is_null (Customer.nationality c)).

(** A value fits a column of type [String(n)]: a string of at most [n]
    characters. *)
Definition within (n : nat) (v : json) : bool :=
  match v with
  | JStr s => (len s <=? n)%nat
  | _ => true
  end.

(** The lengths of lines 21-25. *)
Definition fits (c : Customer.t) : bool :=
  within 80 (Customer.name c) && within 120 (Customer.email c)
  && within 10 (Customer.phone c) && within 80 (Customer.address c)
  && within 80 (Customer.nationality c).

(** [db.session.add(c); db.session.commit()] for a customer built by
    [Customer(name, email, phone, address, nationality)]: the store assigns
    the identifier, raises [DataError] for a value longer than its column,
    and enforces [nullable=False] and [unique=True] with
    [IntegrityError]. *)
Definition add_customer (s : db) (name email phone address nationality : json)
  : exception + db * Customer.t :=
  let c := Customer.mk (next_customer s) name email phone address nationality in
  if negb (fits c) then inl DataError
  else if customer_not_null c
          && negb (taken Customer.email email (customers s))
          && negb (taken Customer.phone phone (customers s))
  then inr (mkdb (customers s ++ [c]) (orders s) (items s)
              (next_customer s + 1) (next_order s) (next_item s), c)
  else inl IntegrityError.

(** The rows of the table other than the one with primary key [id]. *)
Definition other_customers (s : db) (id : Z) : list Customer.t :=
  filter (fun c => negb (Customer.id c =? id)) (customers s).

(** An [UPDATE] is rejected when it gives a unique column a new value that
    another row holds, or makes a column null. *)
Definition update_accepted (s : db) (old new : Customer.t) : bool :=
  customer_not_null new
  && (json_eqb (Customer.email new) (Customer.email old)
      || negb (taken Customer.email (Customer.email new)
                 (other_customers s (Customer.id old))))
  && (json_eqb (Customer.phone new) (Customer.phone old)
      || negb (taken Customer.phone (Customer.phone new)
                 (other_customers s (Customer.id old)))).

(** The columns that an [UPDATE] assigns hold values that fit them. *)
Definition update_fits (old new : Customer.t) : bool :=
  (json_eqb (Customer.name new) (Customer.name old)
   || within 80 (Customer.name new))
  && (json_eqb (Customer.email new) (Customer.email old)
      || within 120 (Customer.email new))
  && (json_eqb (Customer.phone new) (Customer.phone old)
      || within 10 (Customer.phone new))
  && (json_eqb (Customer.address new) (Customer.address old)
      || within 80 (Customer.address new))
  && (json_eqb (Customer.nationality new) (Customer.nationality old)
      || within 80 (Customer.nationality new)).

(** [db.session.commit()] after attributes of the loaded customer [old]
    were assigned, giving [new]: [DataError] for a new value longer than
    its column, [IntegrityError] for a constraint. *)
Definition commit_customer (s : db) (old new : Customer.t) : exception + db :=
  if negb (update_fits old new) then inl DataError
  else if update_accepted s old new
  then inr (mkdb
              (map (fun c => if Customer.id c =? Customer.id old then new else c)
                 (customers s))
              (orders s) (items s)
              (next_customer s) (next_order s) (next_item s))
  else inl IntegrityError.

(** [db.session.delete(c); db.session.commit()].  The relationship
    [orders] has no delete cascade, so the session first sets
    [customer_id] of the customer's orders to null, which
    [nullable=False] refuses: a customer with orders cannot be deleted. *)
Definition remove_customer (s : db) (c : Customer.t) : option db :=
  match orders_of s (Customer.id c) with
  | [] =>
      Some (mkdb (other_customers s (Customer.id c)) (orders s) (items s)
              (next_customer s) (next_order s) (next_item s))
  | _ :: _ => None
  end.

(** [db.session.add(o); db.session.commit()] for
    [Order(customer_id, date, state, customer)]. *)
Definition add_order (s : db) (customer_id : Z) (date : json) (state : string)
  : option (db * Order.t) :=
  let o := Order.mk (next_order s) customer_id date state in
  if negb (is_null date)
  then Some (mkdb (customers s) (orders s ++ [o]) (items s)
               (next_customer s) (next_order s + 1) (next_item s), o)
  else None.

(** [order.state = state] on a loaded order. *)
Definition with_state (order : Order.t) (state : string) : Order.t :=
  Order.mk (Order.id order) (Order.customer_id order) (Order.date order) state.

(** [db.session.commit()] after an attribute of the loaded [order] was
    assigned: the row with its primary key is rewritten. *)
Definition commit_order (s : db) (order : Order.t) : db :=
  mkdb (customers s)
    (map (fun o => if Order.id o =? Order.id order then order else o)
       (orders s))
    (items s) (next_customer s) (next_order s) (next_item s).

(** [db.session.add(i); db.session.commit()] for
    [Item(order_id, width, length, order)]. *)
Definition add_item (s : db) (order_id : Z) (width length : json)
  : option (db * Item.t) :=
  let i := Item.mk (next_item s) order_id width length in
  if negb (is_null width) && negb (is_null length)
  then Some (mkdb (customers s) (orders s) (items s ++ [i])
               (next_customer s) (next_order s) (next_item s + 1), i)
  else None.

(* ================================================================== *)
(** * Serialization: [Schema.dump] *)
(* ================================================================== *)

(** What the database engine decides and the view functions do not: the
    order in which a query without [ORDER BY] returns the rows of a table,
    and what a [DateTime] and a [Float] column give back for the value that
    was assigned to them, as the serializer renders it: the date in a
    format ([fields.Date(format)]), the timestamp in ISO form (a column
    that the schema does not declare), and the double. *)
Class Engine : Type := {
  customer_rows : list Customer.t -> list Customer.t;
  order_rows : list Order.t -> list Order.t;
  item_rows : list Item.t -> list Item.t;
  customer_rows_all : forall l, Permutation (customer_rows l) l;
  order_rows_all : forall l, Permutation (order_rows l) l;
  item_rows_all : forall l, Permutation (item_rows l) l;
  dump_date : string -> json -> json;
  dump_datetime : json -> json;
  dump_float : json -> json
}.

(** [customer_schema.dump]: the six fields of [CustomerSchema.Meta]. *)
Definition customer_schema_dump (c : Customer.t) : json :=
  JDict [ ("id", JInt (Customer.id c));
          ("name", Customer.name c);
          ("email", Customer.email c);
          ("phone", Customer.phone c);
          ("address", Customer.address c);
          ("nationality", Customer.nationality c) ].

(** A nested object, or null when the reference does not resolve. *)
Definition nested {A : Type} (dump : A -> json) (o : option A) : json :=
  match o with
  | Some a => dump a
  | None => JNull
  end.

Section Dump.
Context {engine : Engine}.

(** [order_schema.dump]: the order with its customer nested and its date
    in the format of line 84. *)
Definition order_schema_dump (s : db) (o : Order.t) : json :=
  JDict [ ("id", JInt (Order.id o));
          ("customer_id", JInt (Order.customer_id o));
          ("date", dump_date "%Y-%m-%d" (Order.date o));
          ("state", JStr (Order.state o));
          ("customer",
            nested customer_schema_dump
              (query_customer s (Order.customer_id o))) ].

(** [item_schema.dump]: the item with its order nested (and, in it, the
    order's customer). *)
Definition item_schema_dump (s : db) (i : Item.t) : json :=
  JDict [ ("id", JInt (Item.id i));
          ("order_id", JInt (Item.order_id i));
          ("width", dump_float (Item.width i));
          ("length", dump_float (Item.length i));
          ("order",
            nested (order_schema_dump s) (query_order s (Item.order_id i))) ].

(** [orderItems_schema.dump] (lines 95-100): the order's own columns,
    none of them declared, so that the date is the timestamp of the column,
    and [items = ma.Nested(ItemSchema, many=True)] over the relationship,
    in the order the engine returns its rows. *)
Definition orderItems_schema_dump (s : db) (o : Order.t) : json :=
  JDict [ ("id", JInt (Order.id o));
          ("customer_id", JInt (Order.customer_id o));
          ("date", dump_datetime (Order.date o));
          ("state", JStr (Order.state o));
          ("items",
            JList (map (item_schema_dump s)
                     (item_rows (items_of s (Order.id o))))) ].

End Dump.

(* ================================================================== *)
(** * The view functions *)
(* ================================================================== *)

(** What a request ends in: [jsonify(payload)] with status 200,
    [make_response(jsonify({"message": 'bad request', "error": error}), 400)],
    or an exception leaving the view function. *)
Inductive response : Type :=
  | Ok (payload : json)
  | BadRequest (error : json)
  | Unhandled (e : exception).

(** The order states. *)
Definition Solicitada : string := "Solicitada".
Definition Aprobada : string := "Aprobada".
Definition Anulada : string := "Anulada".

(** The error classes of the specification, read off the 400 responses of
    the source. *)
Inductive error_class : Type :=
  | ValidationError
  | ConflictError
  | NotFoundError
  | InvalidStateError
  | InvalidParameterError.

Definition classify (r : response) : option error_class :=
  match r with
  | BadRequest (JDict _) => Some ValidationError
  | BadRequest (JStr m) =>
      if (m == "user with this email already exists")
         || (m == "user with this phone already exists")
      then Some ConflictError
      else if (m == "user not found") || (m == "order not found")
              || (m == "Order not found")
      then Some NotFoundError
      else if m == "order probably approved or rejected, you cannot add items"
      then Some InvalidStateError
      else if m == "param error"
      then Some InvalidParameterError
      else None
  | _ => None
  end.

(** [request.json[k]] followed by the rest of the view function; a
    missing key raises [KeyError] and nothing was written yet. *)
Definition subscript (s : db) (d : dict) (k : string)
  (rest : json -> db * response) : db * response :=
  match dict_get d k with
  | Some v => rest v
  | None => (s, Unhandled (KeyError k))
  end.

Notation "'let/key' x := d [ k ] 'in' s ; rest" :=
  (subscript s d k (fun x => rest))
  (at level 10, x name, d at level 9, k at level 9, s at level 9,
   rest at level 200, only parsing).

(** [setattr(customer, attr, val)] on the columns: the primary key (an
    integer is what the column takes) and the five data columns.  Any other
    name is no column and is not persisted. *)
Definition setattr (c : Customer.t) (attr : string) (val : json)
  : Customer.t :=
  let '(Customer.mk id name email phone address nationality) := c in
  if attr == "id" then
    match val with
    | JInt n => Customer.mk n name email phone address nationality
    | _ => c
    end
  else if attr == "name" then Customer.mk id val email phone address nationality
  else if attr == "email" then Customer.mk id name val phone address nationality
  else if attr == "phone" then Customer.mk id name email val address nationality
  else if attr == "address" then Customer.mk id name email phone val nationality
  else if attr == "nationality" then Customer.mk id name email phone address val
  else c.

(** The data columns of a customer. *)
Definition columns : list string :=
  ["name"; "email"; "phone"; "address"; "nationality"].

(** [getattr(customer, attr)] on the data columns. *)
Definition getattr (c : Customer.t) (attr : string) : option json :=
  if attr == "name" then Some (Customer.name c)
  else if attr == "email" then Some (Customer.email c)
  else if attr == "phone" then Some (Customer.phone c)
  else if attr == "address" then Some (Customer.address c)
  else if attr == "nationality" then Some (Customer.nationality c)
  else None.

(** Lines 158-160: the loop over [request.json.items()]. *)
Definition assign_all (customer : Customer.t) (body : dict) : Customer.t :=
  fold_left
    (fun c (kv : string * json) =>
       if negb (fst kv == "id") then setattr c (fst kv) (snd kv) else c)
    body customer.

Section Views.
Context {V : Validators} {engine : Engine}.

(** POST /customers, lines 113-137. *)
Definition create_customer (s : db) (body : dict) : db * response :=
  match load_errors CustomerSchema false body with
  | (_ :: _) as err => (s, BadRequest (JDict err))
  | [] =>
      let/key email := body ["email"] in s;
      if taken Customer.email email (customers s)
      then (s, BadRequest (JStr "user with this email already exists"))
      else
        let/key phone := body ["phone"] in s;
        if taken Customer.phone phone (customers s)
        then (s, BadRequest (JStr "user with this phone already exists"))
        else
          let/key name := body ["name"] in s;
          let/key address := body ["address"] in s;
          let/key nationality := body ["nationality"] in s;
          match add_customer s name email phone address nationality with
          | inr (s', new_customer) => (s', Ok (customer_schema_dump new_customer))
          | inl e => (s, Unhandled e)
          end
  end.

(** GET /customers, lines 141-145. *)
Definition get_customers (s : db) : db * response :=
  (s, Ok (JList (map customer_schema_dump (customer_rows (customers s))))).

(** PUT /customers/<id>, lines 147-163. *)
Definition update_customer (s : db) (id : Z) (body : dict) : db * response :=
  match first_customer s id with
  | inl e => (s, Unhandled e)
  | inr None => (s, BadRequest (JStr "user not found"))
  | inr (Some customer) =>
      match load_errors CustomerSchema true body with
      | (_ :: _) as err => (s, BadRequest (JDict err))
      | [] =>
          let customer' := assign_all customer body in
          match commit_customer s customer customer' with
          | inr s' => (s', Ok (customer_schema_dump customer'))
          | inl e => (s, Unhandled e)
          end
      end
  end.

(** DELETE /customers/<id>, lines 165-173. *)
Definition delete_customer (s : db) (id : Z) : db * response :=
  match first_customer s id with
  | inl e => (s, Unhandled e)
  | inr None => (s, BadRequest (JStr "user not found"))
  | inr (Some customer) =>
      match remove_customer s customer with
      | Some s' => (s', Ok (customer_schema_dump customer))
      | None => (s, Unhandled IntegrityError)
      end
  end.

(** POST /order/<id>, lines 175-192. *)
Definition create_order (s : db) (id : Z) (body : dict) : db * response :=
  match first_customer s id with
  | inl e => (s, Unhandled e)
  | inr None => (s, BadRequest (JStr "user not found"))
  | inr (Some customer) =>
      match load_errors OrderSchema false body with
      | (_ :: _) as err => (s, BadRequest (JDict err))
      | [] =>
          let customer_id := id in
          let/key date := body ["date"] in s;
          let state := "Solicitada" in
          match add_order s customer_id date state with
          | Some (s', new_order) => (s', Ok (order_schema_dump s' new_order))
          | None => (s, Unhandled IntegrityError)
          end
      end
  end.

(** GET /orders, lines 194-198. *)
Definition get_orders (s : db) : db * response :=
  (s, Ok (JList (map (order_schema_dump s) (order_rows (orders s))))).

(** PUT /order/<id>/<sw>, lines 200-215. *)
Definition update_order (s : db) (id : Z) (sw : string) : db * response :=
  match first_order s id with
  | inl e => (s, Unhandled e)
  | inr None => (s, BadRequest (JStr "order not found"))
  | inr (Some order) =>
      if sw == "1" then
        let order := with_state order "Aprobada" in
        let s' := commit_order s order in
        (s', Ok (order_schema_dump s' order))
      else if sw == "0" then
        let order := with_state order "Anulada" in
        let s' := commit_order s order in
        (s', Ok (order_schema_dump s' order))
      else (s, BadRequest (JStr "param error"))
  end.

(** POST /item/<id>, lines 218-239. *)
Definition create_item (s : db) (id : Z) (body : dict) : db * response :=
  match first_order s id with
  | inl e => (s, Unhandled e)
  | inr None => (s, BadRequest (JStr "order not found"))
  | inr (Some order) =>
      match load_errors ItemSchema false body with
      | (_ :: _) as err => (s, BadRequest (JDict err))
      | [] =>
          if negb (Order.state order == "Solicitada")
          then (s, BadRequest
                     (JStr "order probably approved or rejected, you cannot add items"))
          else
            let order_id := id in
            let/key width := body ["width"] in s;
            let/key length := body ["length"] in s;
            match add_item s order_id width length with
            | Some (s', new_item) => (s', Ok (item_schema_dump s' new_item))
            | None => (s, Unhandled IntegrityError)
            end
      end
  end.

(** GET /order/<id>, lines 241-248. *)
Definition get_order (s : db) (id : Z) : db * response :=
  match first_order s id with
  | inl e => (s, Unhandled e)
  | inr None => (s, BadRequest (JStr "Order not found"))
  | inr (Some order) => (s, Ok (orderItems_schema_dump s order))
  end.

(** ** The service as a whole *)

(** The routes of the application. *)
Inductive request : Type :=
  | POST_customers (body : dict)
  | GET_customers
  | PUT_customers (id : Z) (body : dict)
  | DELETE_customers (id : Z)
  | POST_order (id : Z) (body : dict)
  | GET_orders
  | PUT_order (id : Z) (sw : string)
  | POST_item (id : Z) (body : dict)
  | GET_order (id : Z).

Definition dispatch (s : db) (r : request) : db * response :=
  match r with
  | POST_customers body => create_customer s body
  | GET_customers => get_customers s
  | PUT_customers id body => update_customer s id body
  | DELETE_customers id => delete_customer s id
  | POST_order id body => create_order s id body
  | GET_orders => get_orders s
  | PUT_order id sw => update_order s id sw
  | POST_item id body => create_item s id body
  | GET_order id => get_order s id
  end.

(** The store after a sequence of requests. *)
Definition serve (s : db) (rs : list request) : db :=
  fold_left (fun s r => fst (dispatch s r)) rs s.

Definition is_ok (r : response) : bool :=
  match r with
  | Ok _ => true
  | _ => false
  end.

(** [r] is a POST /item/<id> that the service answers with 200 in [s]. *)
Definition item_created (id : Z) (s : db) (r : request) : bool :=
  match r with
  | POST_item id' _ => (id' =? id) && is_ok (snd (dispatch s r))
  | _ => false
  end.

(** The order [id] is in the state [state] in [s]. *)
Definition in_state (s : db) (id : Z) (state : string) : bool :=
  match query_order s id with
  | Some o => Order.state o == state
  | None => false
  end.

(** The number of successful POST /item/<id> among [rs], served from [s]
    on; with [requested_only], only those served while the order was
    "Solicitada". *)
Fixpoint items_created (requested_only : bool) (id : Z) (s : db)
  (rs : list request) : nat :=
  match rs with
  | [] => 0%nat
  | r :: rs' =>
      ((if item_created id s r
           && (negb requested_only || in_state s id Solicitada)
        then 1 else 0)
       + items_created requested_only id (fst (dispatch s r)) rs')%nat
  end.

End Views.

(* ================================================================== *)
(** * Sample data *)
(* ================================================================== *)

(** Stand-ins for the three library checks, used to run the service on
    concrete requests: an address has an at sign, a date is a string of
    ten characters, and a number is a JSON number. *)
Fixpoint has_at (s : string) : bool :=
  match s with
  | EmptyString => false
  | String.String c s' => Ascii.eqb c "@" || has_at s'
  end.

#[export] Instance sample_validators : Validators := {|
  valid_email := has_at;
  valid_date := fun _ v =>
    match v with
    | JStr s => (String.length s =? 10)%nat
    | _ => false
    end;
  valid_float := fun v =>
    match v with
    | JInt _ | JFloat _ _ => true
    | _ => false
    end
|}.

(** A stand-in for the engine: rows come back in insertion order, a date
    already written as year-month-day is shown as it is and its timestamp
    is at midnight, and an integer comes back as the double it denotes. *)
#[export] Instance sample_engine : Engine := {|
  customer_rows := fun l => l;
  order_rows := fun l => l;
  item_rows := fun l => l;
  customer_rows_all := fun l => Permutation_refl l;
  order_rows_all := fun l => Permutation_refl l;
  item_rows_all := fun l => Permutation_refl l;
  dump_date := fun _ v => v;
  dump_datetime := fun v =>
    match v with
    | JStr s => JStr (s ++ "T00:00:00")
    | _ => v
    end;
  dump_float := fun v =>
    match v with
    | JInt n => JFloat n 0
    | _ => v
    end
|}.

(** The customer of the end-to-end scenario. *)
Definition ana_body : dict :=
  [ ("name", JStr "Ana Cruz"); ("email", JStr "ana@x.com");
    ("phone", JStr "5551234567"); ("address", JStr "Main St");
    ("nationality", JStr "MX") ].

Definition ana : Customer.t :=
  Customer.mk 1 (JStr "Ana Cruz") (JStr "ana@x.com") (JStr "5551234567")
    (JStr "Main St") (JStr "MX").

(** The same request without the [email] key. *)
Definition ana_without_email : dict :=
  [ ("name", JStr "Ana Cruz"); ("phone", JStr "5551234567");
    ("address", JStr "Main St"); ("nationality", JStr "MX") ].

(** A second registration with Ana's address and a name of two
    characters. *)
Definition al_body : dict :=
  [ ("name", JStr "Al"); ("email", JStr "ana@x.com");
    ("phone", JStr "5550000000"); ("address", JStr "High St");
    ("nationality", JStr "MX") ].

(** A second registration with Ana's address, otherwise well formed. *)
Definition alba_body : dict :=
  [ ("name", JStr "Alba"); ("email", JStr "ana@x.com");
    ("phone", JStr "5550000000"); ("address", JStr "High St");
    ("nationality", JStr "MX") ].


(** A body for POST /order/<id> in which the caller also sends a state. *)
Definition order_body : dict :=
  [ ("date", JStr "2024-01-10"); ("state", JStr "Aprobada") ].

Definition item_body : dict :=
  [ ("width", JFloat 20 (-1)); ("length", JFloat 30 (-1)) ].

(** The store after Ana registered. *)
Definition registered : db := mkdb [ana] [] [] 2 1 1.

Definition order1 : Order.t := Order.mk 1 1 (JStr "2024-01-10") "Solicitada".

(** ... after she placed an order ... *)
Definition ordered : db := mkdb [ana] [order1] [] 2 2 1.

Definition item1 : Item.t := Item.mk 1 1 (JFloat 20 (-1)) (JFloat 30 (-1)).

(** ... and after an item was added to it. *)
Definition stocked : db := mkdb [ana] [order1] [item1] 2 2 2.

(** The store once the order was approved. *)
Definition approved : db :=
  mkdb [ana] [with_state order1 "Aprobada"] [item1] 2 2 2.


(** A partial update that sends an [id] along with a new name. *)
Definition rename : dict := [("id", JInt 7); ("name", JStr "Alba")].

Definition bea : Customer.t :=
  Customer.mk 2 (JStr "Bea Sol") (JStr "bea@x.com") (JStr "5557654321")
    (JStr "Low St") (JStr "MX").

(** A store with two customers. *)
Definition two_customers : db := mkdb [ana; bea] [] [] 3 1 1.

(** The requests of the end-to-end scenario up to the approval. *)
Definition scenario : list request :=
  [ POST_customers ana_body; POST_order 1 order_body; POST_item 1 item_body;
    PUT_order 1 "1"; POST_item 1 item_body ].

(* ================================================================== *)
(** * Integrity of the store *)
(* ================================================================== *)

(** The primary keys of the three tables. *)
Definition customer_ids (s : db) : list Z := map Customer.id (customers s).
Definition order_ids (s : db) : list Z := map Order.id (orders s).
Definition item_ids (s : db) : list Z := map Item.id (items s).

(** The three states an order is ever given (lines 188, 207 and 209). *)
Definition states : list string := [Solicitada; Aprobada; Anulada].

(** What the declarations of lines 19-59 promise of the tables: primary
    keys are distinct and were drawn from the sequences, the unique columns
    hold distinct values, and the foreign keys resolve. *)
Record consistent (s : db) : Prop := {
  customer_keys : NoDup (customer_ids s);
  customer_sequence : Forall (fun i => i < next_customer s) (customer_ids s);
  order_keys : NoDup (order_ids s);
  order_sequence : Forall (fun i => i < next_order s) (order_ids s);
  item_keys : NoDup (item_ids s);
  item_sequence : Forall (fun i => i < next_item s) (item_ids s);
  unique_email : NoDup (map Customer.email (customers s));
  unique_phone : NoDup (map Customer.phone (customers s));
  order_customer :
    Forall (fun o => In (Order.customer_id o) (customer_ids s)) (orders s);
  order_customer_range :
    Forall (fun o => in_range (Order.customer_id o) = true) (orders s);
  item_order :
    Forall (fun i => In (Item.order_id i) (order_ids s)) (items s);
  item_order_range :
    Forall (fun i => in_range (Item.order_id i) = true) (items s);
  order_states : Forall (fun o => In (Order.state o) states) (orders s)
}.

(** The writes a view function commits, each with what the view function
    established before it. *)
Inductive write (s : db) : db -> Prop :=
  | write_nothing : write s s
  | write_add_customer name email phone address nationality s' c :
      add_customer s name email phone address nationality = inr (s', c) ->
      write s s'
  | write_commit_customer old new s' :
      In old (customers s) ->
      Customer.id new = Customer.id old ->
      commit_customer s old new = inr s' ->
      write s s'
  | write_remove_customer c s' :
      remove_customer s c = Some s' ->
      write s s'
  | write_add_order customer_id date s' o :
      in_range customer_id = true ->
      In customer_id (customer_ids s) ->
      add_order s customer_id date Solicitada = Some (s', o) ->
      write s s'
  | write_commit_order o state :
      In o (orders s) ->
      state = Aprobada \/ state = Anulada ->
      write s (commit_order s (with_state o state))
  | write_add_item order_id width length s' i :
      in_range order_id = true ->
      In order_id (order_ids s) ->
      add_item s order_id width length = Some (s', i) ->
      write s s'.

(** The body of a request, for the routes that read one. *)
Definition body_of (r : request) : option dict :=
  match r with
  | POST_customers body | PUT_customers _ body
  | POST_order _ body | POST_item _ body => Some body
  | _ => None
  end.


(** Every body among the requests is a dictionary. *)
Definition dict_bodies (rs : list request) : Prop :=
  Forall (fun r => match body_of r with
                   | Some body => is_dict body
                   | None => True
                   end) rs.

(** The order [id] exists and has left the state "Solicitada". *)
Definition decided (s : db) (id : Z) : bool :=
  match query_order s id with
  | Some o => negb (Order.state o == Solicitada)
  | None => false
  end.

(** The columns of an order that no view function assigns after the
    order was created. *)
Definition placed (o : Order.t) : Z * Z * json :=
  (Order.id o, Order.customer_id o, Order.date o).

(** A request that only reads. *)
Definition is_get (r : request) : bool :=
  match r with
  | GET_customers | GET_orders | GET_order _ => true
  | _ => false
  end.

Section Shapes.
Context {V : Validators}.

(** The value [v] passes the field [f]. *)
Definition passes (f : field) (v : json) : bool :=
  match field_error f false (Some v) with
  | None => true
  | Some _ => false
  end.

(** The columns of the customer pass the fields that [CustomerSchema]
    declares for them (lines 70-74). *)
Definition valid_customer (c : Customer.t) : bool :=
  passes (fields.String true (Some 3%nat)) (Customer.name c)
  && passes fields.Email (Customer.email c)
  && passes (fields.String true (Some 10%nat)) (Customer.phone c)
  && passes (fields.String true None) (Customer.address c)
  && passes (fields.String true None) (Customer.nationality c).

(** The date of the order passes the field of [OrderSchema] (line 84). *)
Definition valid_order (o : Order.t) : bool :=
  passes (fields.Date "%Y-%m-%d" true) (Order.date o).

(** The measures of the item pass the fields of [ItemSchema] (lines
    92-93). *)
Definition valid_item (i : Item.t) : bool :=
  passes (fields.Float true) (Item.width i)
  && passes (fields.Float true) (Item.length i).

(** The rows of the three tables pass the fields of their schemas. *)
Definition shaped (s : db) : Prop :=
  Forall (fun c => valid_customer c = true) (customers s)
  /\ Forall (fun o => valid_order o = true) (orders s)
  /\ Forall (fun i => valid_item i = true) (items s).

End Shapes.

(** More requests to run the service on. *)
Definition bea_body : dict :=
  [ ("name", JStr "Bea Sol"); ("email", JStr "bea@x.com");
    ("phone", JStr "5557654321"); ("address", JStr "Low St");
    ("nationality", JStr "MX") ].

(** A day in which two customers register, one is renamed, orders are
    placed, filled and decided, and the customer without orders leaves. *)
Definition busy_day : list request :=
  [ POST_customers ana_body; POST_customers bea_body;
    PUT_customers 1 rename; POST_order 1 order_body;
    POST_item 1 item_body; POST_item 1 item_body; PUT_order 1 "1";
    POST_order 1 order_body; DELETE_customers 2; GET_orders ].

(* ================================================================== *)
(** * Proof automation *)
(* ================================================================== *)

Ltac string_cases :=
  repeat match goal with
    | |- context [?a == ?b] => destruct (String.eqb_spec a b); subst
    | H : context [?a == ?b] |- _ => destruct (String.eqb_spec a b); subst
    end.

Ltac case_match :=
  match goal with
  | |- context [match ?x with _ => _ end] => destruct x eqn:?
  end.

(* ================================================================== *)
(** * Facts about dictionaries and validation *)
(* ================================================================== *)

Lemma json_eqb_eq (a b : json) : json_eqb a b = true <-> a = b.
Proof.
  unfold json_eqb. destruct (json_eq_dec a b); split; auto; discriminate.
Qed.

Lemma dict_get_In (d : dict) (k : string) (v : json) :
  dict_get d k = Some v -> In (k, v) d.
Proof.
  induction d as [|[k' v'] d IH]; simpl; [discriminate|].
  destruct (k == k') eqn:E.
  - apply String.eqb_eq in E. intros [= ->]. subst. now left.
  - intros H. right. auto.
Qed.

Lemma taken_spec (col : Customer.t -> json) (v : json) (rows : list Customer.t) :
  taken col v rows = true <-> exists c, In c rows /\ col c = v.
Proof.
  unfold taken. rewrite existsb_exists.
  split; intros (c & Hc & E); exists c; split; auto; now apply json_eqb_eq.
Qed.

Section Validation_facts.
Context {V : Validators}.

(** A schema that raises nothing raises nothing on any of its fields. *)
Lemma declared_errors_nil (s : schema) (partial : bool) (data : dict)
  (name : string) (f : field) :
  declared_errors s partial data = [] ->
  In (name, f) s ->
  field_error f partial (dict_get data name) = None.
Proof.
  induction s as [|[n g] s IH]; simpl; [tauto|].
  destruct (field_error g partial (dict_get data n)) eqn:E; [discriminate|].
  intros H [[= -> ->]|HI]; auto.
Qed.

(** An error on one field makes [load] raise, with that field among the
    messages. *)
Lemma declared_errors_In (s : schema) (partial : bool) (data : dict)
  (name : string) (f : field) (e : json) :
  In (name, f) s ->
  field_error f partial (dict_get data name) = Some e ->
  In (name, e) (declared_errors s partial data).
Proof.
  induction s as [|[n g] s IH]; simpl; [tauto|].
  intros [[= -> ->]|HI] E.
  - rewrite E. now left.
  - destruct (field_error g partial (dict_get data n)); [right|]; auto.
Qed.

(** A nested field loads its value with the nested schema. *)
Lemma nested_field_load (s : schema) (partial : bool) (data : dict) :
  field_error (fields.Nested s) partial (Some (JDict data))
  = match load_errors s partial data with
    | [] => None
    | errs => Some (JDict errs)
    end.
Proof.
  simpl. unfold load_errors.
  match goal with
  | |- match ?each s ++ _ with _ => _ end = _ =>
      assert (each s = declared_errors s partial data) as ->
  end.
  { induction s as [|[n f] s IH]; simpl; [reflexivity|]. now rewrite IH. }
  reflexivity.
Qed.

Lemma load_errors_nil (s : schema) (partial : bool) (data : dict) :
  load_errors s partial data = [] ->
  declared_errors s partial data = []
  /\ unknown_errors (map fst s) data = [].
Proof. unfold load_errors. apply app_eq_nil. Qed.

Lemma load_errors_field (s : schema) (partial : bool) (data : dict)
  (name : string) (f : field) :
  load_errors s partial data = [] ->
  In (name, f) s ->
  field_error f partial (dict_get data name) = None.
Proof.
  intros H. apply load_errors_nil in H as [H _].
  now apply declared_errors_nil.
Qed.





End Validation_facts.

(* ================================================================== *)
(** * Facts about the store *)
(* ================================================================== *)

(** The query returns a row exactly when the parameter is in the range
    of the key and the table has a row with that key. *)
Lemma query_order_find (s : db) (id : Z) (o : Order.t) :
  query_order s id = Some o <->
  in_range id = true /\ find (fun o => Order.id o =? id) (orders s) = Some o.
Proof.
  unfold query_order, first_order. destruct (in_range id); split;
    [auto | tauto | discriminate | intros [? _]; discriminate].
Qed.

Lemma query_customer_find (s : db) (id : Z) (c : Customer.t) :
  query_customer s id = Some c <->
  in_range id = true
  /\ find (fun c => Customer.id c =? id) (customers s) = Some c.
Proof.
  unfold query_customer, first_customer. destruct (in_range id); split;
    [auto | tauto | discriminate | intros [? _]; discriminate].
Qed.

Lemma query_order_in_range (s : db) (id : Z) :
  in_range id = true ->
  query_order s id = find (fun o => Order.id o =? id) (orders s)
  /\ first_order s id = inr (query_order s id).
Proof. unfold query_order, first_order. now intros ->. Qed.

Lemma query_customer_in_range (s : db) (id : Z) :
  in_range id = true ->
  query_customer s id = find (fun c => Customer.id c =? id) (customers s)
  /\ first_customer s id = inr (query_customer s id).
Proof. unfold query_customer, first_customer. now intros ->. Qed.



(** The lookup of a view function, from what the query returns. *)
Lemma first_order_Some (s : db) (id : Z) (o : Order.t) :
  query_order s id = Some o -> first_order s id = inr (Some o).
Proof.
  intros H. apply query_order_find in H as H'. destruct H' as [R _].
  destruct (query_order_in_range s id R) as [_ ->]. now rewrite H.
Qed.

Lemma first_customer_Some (s : db) (id : Z) (c : Customer.t) :
  query_customer s id = Some c -> first_customer s id = inr (Some c).
Proof.
  intros H. apply query_customer_find in H as H'. destruct H' as [R _].
  destruct (query_customer_in_range s id R) as [_ ->]. now rewrite H.
Qed.

(** The three outcomes of a lookup. *)
Lemma first_order_cases (s : db) (id : Z) :
  (in_range id = false /\ first_order s id = inl DataError
   /\ query_order s id = None)
  \/ (in_range id = true /\ first_order s id = inr None
      /\ query_order s id = None)
  \/ (exists o, in_range id = true /\ first_order s id = inr (Some o)
                /\ query_order s id = Some o).
Proof.
  unfold query_order, first_order. destruct (in_range id); [|now left].
  right. destruct (find _ (orders s)) as [o|]; [right; eauto | now left].
Qed.

Lemma first_customer_cases (s : db) (id : Z) :
  (in_range id = false /\ first_customer s id = inl DataError
   /\ query_customer s id = None)
  \/ (in_range id = true /\ first_customer s id = inr None
      /\ query_customer s id = None)
  \/ (exists c, in_range id = true /\ first_customer s id = inr (Some c)
                /\ query_customer s id = Some c).
Proof.
  unfold query_customer, first_customer. destruct (in_range id); [|now left].
  right. destruct (find _ (customers s)) as [c|]; [right; eauto | now left].
Qed.

Lemma query_order_found (s : db) (id : Z) (o : Order.t) :
  query_order s id = Some o -> In o (orders s) /\ Order.id o = id.
Proof.
  intros H. apply query_order_find in H as [_ H].
  apply find_some in H as [HI E].
  split; [assumption|]. now apply Z.eqb_eq.
Qed.

Lemma query_customer_found (s : db) (id : Z) (c : Customer.t) :
  query_customer s id = Some c -> In c (customers s) /\ Customer.id c = id.
Proof.
  intros H. apply query_customer_find in H as [_ H].
  apply find_some in H as [HI E].
  split; [assumption|]. now apply Z.eqb_eq.
Qed.

(** After the commit the query by primary key returns the rewritten row. *)
Lemma query_order_commit (s : db) (id : Z) (old new : Order.t) :
  query_order s id = Some old ->
  Order.id new = id ->
  query_order (commit_order s new) id = Some new.
Proof.
  intros H <-. apply query_order_find in H as [R H].
  apply query_order_find. split; [assumption|].
  unfold commit_order. simpl.
  induction (orders s) as [|o l IH]; simpl in *; [discriminate|].
  destruct (Order.id o =? Order.id new) eqn:Eo; simpl.
  - now rewrite Z.eqb_refl.
  - rewrite Eo. auto.
Qed.

Lemma commit_customer_inr (s s' : db) (old new : Customer.t) :
  commit_customer s old new = inr s' ->
  update_fits old new = true /\ update_accepted s old new = true
  /\ s' = mkdb
            (map (fun c => if Customer.id c =? Customer.id old then new else c)
               (customers s))
            (orders s) (items s)
            (next_customer s) (next_order s) (next_item s).
Proof.
  unfold commit_customer.
  destruct (update_fits old new); [|discriminate].
  destruct (update_accepted s old new); [|discriminate].
  now intros [= <-].
Qed.

Lemma add_customer_inr (s s' : db) (name email phone address nationality : json)
  (c : Customer.t) :
  add_customer s name email phone address nationality = inr (s', c) ->
  c = Customer.mk (next_customer s) name email phone address nationality
  /\ fits c = true /\ customer_not_null c = true
  /\ taken Customer.email email (customers s) = false
  /\ taken Customer.phone phone (customers s) = false
  /\ s' = mkdb (customers s ++ [c]) (orders s) (items s)
            (next_customer s + 1) (next_order s) (next_item s).
Proof.
  unfold add_customer.
  destruct (fits _) eqn:F; [|discriminate]. simpl.
  destruct (customer_not_null _ && _ && _) eqn:G; [|discriminate].
  intros [= <- <-].
  apply andb_true_iff in G as [G Tp]. apply andb_true_iff in G as [G Te].
  apply negb_true_iff in Te, Tp. auto 6.
Qed.

Lemma query_customer_commit (s s' : db) (id : Z) (old new : Customer.t) :
  query_customer s id = Some old ->
  Customer.id new = id ->
  commit_customer s old new = inr s' ->
  query_customer s' id = Some new.
Proof.
  intros H E C. apply commit_customer_inr in C as (_ & _ & ->).
  apply query_customer_found in H as H'. destruct H' as [_ Eold].
  apply query_customer_find in H as [R H].
  apply query_customer_find. split; [assumption|].
  simpl. rewrite Eold. subst id.
  induction (customers s) as [|c l IH]; simpl in *; [discriminate|].
  destruct (Customer.id c =? Customer.id new) eqn:Ec; simpl.
  - now rewrite Z.eqb_refl.
  - rewrite Ec. auto.
Qed.

Lemma length_filter_snoc {A : Type} (p : A -> bool) (l : list A) (x : A) :
  List.length (filter p (l ++ [x]))
  = (List.length (filter p l) + (if p x then 1 else 0))%nat.
Proof.
  rewrite filter_app, length_app. simpl. now destruct (p x).
Qed.

(* ================================================================== *)
(** * The order life cycle *)
(* ================================================================== *)

Section Lifecycle.
Context {V : Validators} {engine : Engine}.



(** The two accepted tokens, from any current state. *)
Lemma update_order_token (s : db) (id : Z) (order : Order.t) (sw state : string) :
  query_order s id = Some order ->
  (sw = "1" /\ state = Aprobada) \/ (sw = "0" /\ state = Anulada) ->
  exists s' o,
    update_order s id sw = (s', Ok (order_schema_dump s' o))
    /\ query_order s' id = Some o /\ Order.state o = state.
Proof.
  intros H Hsw. pose proof (query_order_found _ _ _ H) as [_ E].
  unfold update_order. rewrite (first_order_Some _ _ _ H).
  destruct Hsw as [[-> ->] | [-> ->]]; simpl;
    do 2 eexists; repeat split;
    now apply query_order_commit with (old := order).
Qed.

(** C2.  For an existing order, PUT /order/<id>/1 sets its state to
    "Aprobada" (Approved) and PUT /order/<id>/0 to "Anulada" (Rejected);
    any other token is answered 400 "param error"
    (InvalidParameterError) and the store, hence the state of the order,
    is unchanged. *)
Theorem update_order_decision (s : db) (id : Z) (order : Order.t) :
  query_order s id = Some order ->
  (exists s' o,
      update_order s id "1" = (s', Ok (order_schema_dump s' o))
      /\ query_order s' id = Some o /\ Order.state o = Aprobada)
  /\ (exists s' o,
         update_order s id "0" = (s', Ok (order_schema_dump s' o))
         /\ query_order s' id = Some o /\ Order.state o = Anulada)
  /\ (forall sw, sw <> "1" -> sw <> "0" ->
        update_order s id sw = (s, BadRequest (JStr "param error"))
        /\ classify (snd (update_order s id sw)) = Some InvalidParameterError
        /\ query_order (fst (update_order s id sw)) id = Some order).
Proof.
  intros H. split; [|split].
  - apply update_order_token with (order := order); auto.
  - apply update_order_token with (order := order); auto.
  - intros sw N1 N0. apply String.eqb_neq in N1, N0.
    unfold update_order. rewrite (first_order_Some _ _ _ H), N1, N0.
    simpl. auto.
Qed.



(** C4.  An order that already is "Aprobada" or "Anulada" is transitioned
    again: with token "1" or "0" PUT /order/<id>/<sw> answers 200 and
    overwrites the state; the current state is not consulted. *)
Theorem update_order_from_terminal (s : db) (id : Z) (order : Order.t)
  (sw : string) :
  query_order s id = Some order ->
  Order.state order = Aprobada \/ Order.state order = Anulada ->
  sw = "1" \/ sw = "0" ->
  exists s' o,
    update_order s id sw = (s', Ok (order_schema_dump s' o))
    /\ query_order s' id = Some o
    /\ Order.state o = (if sw == "1" then Aprobada else Anulada).
Proof.
  intros H _ Hsw.
  apply update_order_token with (order := order); [assumption|].
  destruct Hsw as [-> | ->]; simpl; auto.
Qed.


End Lifecycle.

(* ================================================================== *)
(** * The customer registry *)
(* ================================================================== *)

(** An assignment to an attribute other than [id] leaves the identifier
    as it is; an assignment to [id] does not. *)
Lemma setattr_id (c : Customer.t) (attr : string) (val : json) :
  attr <> "id" -> Customer.id (setattr c attr val) = Customer.id c.
Proof.
  intros N. destruct c. unfold setattr.
  string_cases; try reflexivity. contradiction.
Qed.

Lemma setattr_id_assigns (c : Customer.t) (n : Z) :
  Customer.id (setattr c "id" (JInt n)) = n.
Proof. now destruct c. Qed.

Lemma getattr_setattr_same (c : Customer.t) (attr : string) (val : json) :
  In attr columns -> getattr (setattr c attr val) attr = Some val.
Proof.
  destruct c. unfold columns. simpl.
  intros [<-|[<-|[<-|[<-|[<-|[]]]]]]; reflexivity.
Qed.

Lemma getattr_setattr_other (c : Customer.t) (attr attr' : string) (val : json) :
  attr <> attr' -> getattr (setattr c attr val) attr' = getattr c attr'.
Proof.
  intros N. destruct c. unfold setattr, getattr.
  string_cases; try destruct val; simpl; try reflexivity; try congruence.
Qed.

Lemma assign_all_cons (c : Customer.t) (k : string) (v : json) (body : dict) :
  assign_all c ((k, v) :: body)
  = assign_all (if negb (k == "id") then setattr c k v else c) body.
Proof. reflexivity. Qed.

(** The loop never touches the identifier: the test of line 159 keeps
    the key [id] of the body away from [setattr]. *)
Lemma assign_all_id (body : dict) (c : Customer.t) :
  Customer.id (assign_all c body) = Customer.id c.
Proof.
  revert c. induction body as [|[k v] body IH]; intros c; [reflexivity|].
  rewrite assign_all_cons, IH.
  destruct (String.eqb_spec k "id") as [->|N]; [reflexivity|].
  now apply setattr_id.
Qed.

(** A column that the body does not name keeps its value. *)
Lemma assign_all_absent (body : dict) (c : Customer.t) (k : string) :
  dict_get body k = None ->
  getattr (assign_all c body) k = getattr c k.
Proof.
  revert c. induction body as [|[k0 v0] body IH]; intros c; [reflexivity|].
  simpl dict_get. destruct (String.eqb_spec k k0) as [->|N]; [discriminate|].
  intros H. rewrite assign_all_cons, (IH _ H).
  destruct (negb (k0 == "id")); [|reflexivity].
  apply getattr_setattr_other. congruence.
Qed.

(** A column that the body names, other than [id], gets the value of the
    body. *)
Lemma assign_all_present (body : dict) (c : Customer.t) (k : string) (v : json) :
  is_dict body ->
  In k columns ->
  dict_get body k = Some v ->
  getattr (assign_all c body) k = Some v.
Proof.
  unfold is_dict, keys. revert c.
  induction body as [|[k0 v0] body IH]; intros c ND Hc; [discriminate|].
  simpl in ND. inversion ND as [|? ? Hnot ND']; subst.
  simpl dict_get. rewrite assign_all_cons.
  destruct (String.eqb_spec k k0) as [->|N].
  - intros [= ->].
    assert (dict_get body k0 = None) as Habs.
    { destruct (dict_get body k0) eqn:E; [|reflexivity].
      apply dict_get_In in E. exfalso. apply Hnot.
      change k0 with (fst (k0, j)). now apply in_map. }
    rewrite (assign_all_absent _ _ _ Habs).
    assert ((k0 == "id") = false) as ->.
    { apply String.eqb_neq. intros ->. unfold columns in Hc. simpl in Hc.
      repeat (destruct Hc as [Hc|Hc]; [discriminate|]). contradiction. }
    simpl. now apply getattr_setattr_same.
  - intros H. now apply IH.
Qed.

Section Registry.
Context {V : Validators}.


(** A body with an error on one of its fields is answered 400 with the
    messages of [load], that field among them, and nothing is written. *)
Lemma create_customer_invalid (s : db) (body : dict) (name : string)
  (f : field) (e : json) :
  In (name, f) CustomerSchema ->
  field_error f false (dict_get body name) = Some e ->
  exists err,
    create_customer s body = (s, BadRequest (JDict err))
    /\ In (name, e) err
    /\ classify (snd (create_customer s body)) = Some ValidationError.
Proof.
  intros HI E. unfold create_customer.
  pose proof (declared_errors_In _ _ _ _ _ _ HI E) as D.
  assert (In (name, e) (load_errors CustomerSchema false body)) as L
    by (unfold load_errors; apply in_or_app; now left).
  destruct (load_errors CustomerSchema false body) as [|x err] eqn:El;
    [contradiction|].
  exists (x :: err). repeat split. assumption.
Qed.

(** The shapes that POST /customers refuses: a missing or too short
    [name] or [phone], a missing [address] or [nationality], and an
    [email] that is supplied and is no valid address.  (A missing [email]
    is not among them.) *)
Lemma create_customer_rejects (s : db) (body : dict) :
  dict_get body "name" = None
  \/ dict_get body "phone" = None
  \/ dict_get body "address" = None
  \/ dict_get body "nationality" = None
  \/ (exists n, dict_get body "name" = Some (JStr n)
                /\ (len n < 3)%nat)
  \/ (exists p, dict_get body "phone" = Some (JStr p)
                /\ (len p < 10)%nat)
  \/ (exists e, dict_get body "email" = Some (JStr e)
                /\ valid_email e = false) ->
  classify (snd (create_customer s body)) = Some ValidationError
  /\ fst (create_customer s body) = s.
Proof.
  intros H.
  assert (exists name f e, In (name, f) CustomerSchema
            /\ field_error f false (dict_get body name) = Some e)
    as (name & f & e & HI & E).
  { destruct H as [H|[H|[H|[H|[(n & H & L)|[(q & H & L)|(m & H & L)]]]]]].
    - exists "name", (fields.String true (Some 3%nat)). rewrite H.
      eexists. split; [simpl; tauto | reflexivity].
    - exists "phone", (fields.String true (Some 10%nat)). rewrite H.
      eexists. split; [simpl; tauto | reflexivity].
    - exists "address", (fields.String true None). rewrite H.
      eexists. split; [simpl; tauto | reflexivity].
    - exists "nationality", (fields.String true None). rewrite H.
      eexists. split; [simpl; tauto | reflexivity].
    - exists "name", (fields.String true (Some 3%nat)). rewrite H.
      eexists. split; [simpl; tauto|]. simpl.
      apply Nat.ltb_lt in L. now rewrite L.
    - exists "phone", (fields.String true (Some 10%nat)). rewrite H.
      eexists. split; [simpl; tauto|]. simpl.
      apply Nat.ltb_lt in L. now rewrite L.
    - exists "email", fields.Email. rewrite H.
      eexists. split; [simpl; tauto|]. simpl. now rewrite L. }
  destruct (create_customer_invalid s body name f e HI E) as (err & C & _ & K).
  split; [exact K | now rewrite C].
Qed.


(** C5, as the code has it.  When the body passes the validation of the
    customer schema and carries an [email], and its email or its phone is
    that of a persisted customer, POST /customers answers 400 with a
    duplicate message (ConflictError) and the store is unchanged. *)
Theorem create_customer_conflict (s : db) (body : dict) (email phone : json)
  (c : Customer.t) :
  load_errors CustomerSchema false body = [] ->
  dict_get body "email" = Some email ->
  dict_get body "phone" = Some phone ->
  In c (customers s) ->
  Customer.email c = email \/ Customer.phone c = phone ->
  classify (snd (create_customer s body)) = Some ConflictError
  /\ fst (create_customer s body) = s.
Proof.
  intros Hl He Hp Hc Hdup.
  unfold create_customer, subscript. rewrite Hl, He.
  destruct (taken Customer.email email (customers s)) eqn:Te; [now split|].
  rewrite Hp.
  assert (taken Customer.phone phone (customers s) = true) as ->.
  { destruct Hdup as [E|E].
    - assert (taken Customer.email email (customers s) = true)
        by (apply taken_spec; eauto).
      congruence.
    - apply taken_spec; eauto. }
  now split.
Qed.

End Registry.

Section Registry_updates.
Context {V : Validators}.

(** C6, at the input where the code departs from it.  A body that lacks
    [email] and is otherwise well formed passes [customer_schema.load],
    because the schema declares [email] without [required=True]; the view
    function then evaluates [request.json['email']], and the [KeyError]
    leaves it: the answer is no 400 with per-field messages.  Nothing is
    written. *)
Theorem create_customer_missing_email (s : db) :
  load_errors CustomerSchema false ana_without_email = []
  /\ create_customer s ana_without_email = (s, Unhandled (KeyError "email"))
  /\ classify (snd (create_customer s ana_without_email)) = None.
Proof. repeat split. Qed.


End Registry_updates.

(* ================================================================== *)
(** * Items of an order *)
(* ================================================================== *)

Lemma add_customer_items (s s' : db) (name email phone address nationality : json)
  (c : Customer.t) :
  add_customer s name email phone address nationality = inr (s', c) ->
  items s' = items s.
Proof.
  intros H. now apply add_customer_inr in H as (_ & _ & _ & _ & _ & ->).
Qed.

Lemma commit_customer_items (s s' : db) (old new : Customer.t) :
  commit_customer s old new = inr s' -> items s' = items s.
Proof.
  intros H. now apply commit_customer_inr in H as (_ & _ & ->).
Qed.

Lemma remove_customer_items (s s' : db) (c : Customer.t) :
  remove_customer s c = Some s' -> items s' = items s.
Proof.
  unfold remove_customer. case_match; [|discriminate]. now intros [= <-].
Qed.

Lemma add_order_items (s s' : db) (customer_id : Z) (date : json)
  (state : string) (o : Order.t) :
  add_order s customer_id date state = Some (s', o) -> items s' = items s.
Proof.
  unfold add_order. case_match; [|discriminate]. now intros [= <- _].
Qed.

Section Items.
Context {V : Validators} {engine : Engine}.

(** POST /item/<id> either leaves the store as it is and answers no 200,
    or answers 200 after appending one item of the order [id], which was
    "Solicitada". *)
Lemma create_item_outcome (s : db) (id : Z) (body : dict) :
  (fst (create_item s id body) = s
   /\ is_ok (snd (create_item s id body)) = false)
  \/ (exists item,
        items (fst (create_item s id body)) = items s ++ [item]
        /\ Item.order_id item = id
        /\ is_ok (snd (create_item s id body)) = true
        /\ in_state s id Solicitada = true).
Proof.
  unfold create_item, subscript, add_item, in_state.
  destruct (first_order_cases s id)
    as [(_ & -> & _) | [(_ & -> & _) | (order & _ & -> & ->)]];
    [now left | now left |].
  destruct (load_errors ItemSchema false body); [|now left].
  destruct (Order.state order == "Solicitada") eqn:Es; [|now left].
  simpl.
  destruct (dict_get body "width") as [w|]; [|now left].
  destruct (dict_get body "length") as [l|]; [|now left].
  destruct (negb (is_null w) && negb (is_null l)); [|now left].
  right. eexists. simpl. repeat split. exact Es.
Qed.

(** No other view function writes to the item table. *)
Lemma dispatch_items (s : db) (r : request) :
  (forall id body, r <> POST_item id body) ->
  items (fst (dispatch s r)) = items s.
Proof.
  intros N. destruct r; simpl;
    try solve [exfalso; eapply N; reflexivity];
    unfold create_customer, get_customers, update_customer, delete_customer,
      create_order, get_orders, update_order, get_order, subscript;
    repeat case_match; subst; simpl;
    eauto using add_customer_items, commit_customer_items,
      remove_customer_items, add_order_items.
Qed.

(** One request changes the number of items of an order by one when it is
    a successful POST /item/<id> for that order, and not otherwise. *)
Lemma dispatch_item_count (s : db) (r : request) (id : Z) :
  List.length (items_of (fst (dispatch s r)) id)
  = (List.length (items_of s id) + (if item_created id s r then 1 else 0))%nat.
Proof.
  destruct r;
    try (unfold items_of; rewrite dispatch_items by discriminate;
         simpl; lia).
  unfold items_of, item_created. simpl dispatch.
  destruct (create_item_outcome s id0 body) as [[-> ->] | (item & E & Ei & -> & _)].
  - rewrite andb_false_r. lia.
  - rewrite E, length_filter_snoc, Ei, andb_true_r. reflexivity.
Qed.

Lemma item_created_requested (s : db) (r : request) (id : Z) :
  item_created id s r = true -> in_state s id Solicitada = true.
Proof.
  destruct r; simpl; try discriminate.
  intros H. apply andb_prop in H as [E O]. apply Z.eqb_eq in E. subst id0.
  destruct (create_item_outcome s id body) as [[_ F] | (_ & _ & _ & _ & R)];
    [congruence | exact R].
Qed.

Lemma serve_cons (s : db) (r : request) (rs : list request) :
  serve s (r :: rs) = serve (fst (dispatch s r)) rs.
Proof. reflexivity. Qed.

(** The items of an order after a sequence of requests are those it had
    plus one for each successful POST /item/<id>. *)
Lemma serve_item_count (rs : list request) (s : db) (id : Z) :
  List.length (items_of (serve s rs) id)
  = (List.length (items_of s id) + items_created false id s rs)%nat.
Proof.
  revert s. induction rs as [|r rs IH]; intros s; simpl items_created.
  - simpl. lia.
  - rewrite serve_cons, IH, dispatch_item_count, andb_true_r. lia.
Qed.

(** Every successful POST /item/<id> was served while the order was
    "Solicitada". *)
Lemma items_created_requested (rs : list request) (s : db) (id : Z) :
  items_created true id s rs = items_created false id s rs.
Proof.
  revert s. induction rs as [|r rs IH]; intros s; simpl; [reflexivity|].
  rewrite IH. f_equal.
  destruct (item_created id s r) eqn:E; [|reflexivity].
  now rewrite (item_created_requested _ _ _ E).
Qed.

(** C8.  Served from the empty store, for every order that exists after
    a sequence of requests, the list under [items] in the answer of GET
    /order/<id> has as many elements as there were successful POST
    /item/<id> for that order, and each of those was served while the
    order was "Solicitada" (Requested). *)
Theorem get_order_item_count (rs : list request) (id : Z) (order : Order.t) :
  query_order (serve create_all rs) id = Some order ->
  exists view l,
    get_order (serve create_all rs) id = (serve create_all rs, Ok view)
    /\ member "items" view = Some (JList l)
    /\ List.length l = items_created false id create_all rs
    /\ items_created false id create_all rs
       = items_created true id create_all rs.
Proof.
  intros H. pose proof (query_order_found _ _ _ H) as [_ E].
  unfold get_order. rewrite (first_order_Some _ _ _ H).
  do 2 eexists. split; [reflexivity|].
  split; [reflexivity|]. split.
  - rewrite length_map, (Permutation_length (item_rows_all _)), E.
    now rewrite serve_item_count.
  - symmetry. apply items_created_requested.
Qed.

End Items.

(* ================================================================== *)
(** * The service on concrete requests *)
(* ================================================================== *)

(** The sample stores are the ones the scenario goes through. *)
Example scenario_stores :
  serve create_all [POST_customers ana_body] = registered
  /\ serve registered [POST_order 1 order_body] = ordered
  /\ serve ordered [POST_item 1 item_body] = stocked
  /\ serve stocked [PUT_order 1 "1"] = approved
  /\ serve create_all scenario = approved.
Proof. repeat split. Qed.

(** The last request of the scenario, an item for the approved order, is
    refused. *)
Example scenario_last_item_refused :
  classify (snd (create_item approved 1 item_body)) = Some InvalidStateError.
Proof. reflexivity. Qed.

(** An update that gives Bea the address of Ana passes the validation and
    is refused by the store. *)
Example update_customer_duplicate_email :
  update_customer two_customers 2 [("email", JStr "ana@x.com")]
  = (two_customers, Unhandled IntegrityError).
Proof. reflexivity. Qed.

(** A customer with an order cannot be deleted. *)
Example delete_customer_with_order :
  delete_customer ordered 1 = (ordered, Unhandled IntegrityError).
Proof. reflexivity. Qed.

(** ** Instances of the theorems *)


Lemma update_order_decision_witness :
  query_order ordered 1 = Some order1
  /\ (exists s' o,
         update_order ordered 1 "1" = (s', Ok (order_schema_dump s' o))
         /\ query_order s' 1 = Some o /\ Order.state o = Aprobada)
  /\ (exists s' o,
         update_order ordered 1 "0" = (s', Ok (order_schema_dump s' o))
         /\ query_order s' 1 = Some o /\ Order.state o = Anulada)
  /\ (forall sw, sw <> "1" -> sw <> "0" ->
        update_order ordered 1 sw = (ordered, BadRequest (JStr "param error"))
        /\ classify (snd (update_order ordered 1 sw))
           = Some InvalidParameterError
        /\ query_order (fst (update_order ordered 1 sw)) 1 = Some order1).
Proof.
  split; [reflexivity|].
  apply (update_order_decision ordered 1 order1). reflexivity.
Defined.


Lemma update_order_from_terminal_witness :
  query_order approved 1 = Some (with_state order1 "Aprobada")
  /\ (Order.state (with_state order1 "Aprobada") = Aprobada
      \/ Order.state (with_state order1 "Aprobada") = Anulada)
  /\ exists s' o,
       update_order approved 1 "0" = (s', Ok (order_schema_dump s' o))
       /\ query_order s' 1 = Some o
       /\ Order.state o = Anulada.
Proof.
  split; [reflexivity|]. split; [left; reflexivity|].
  apply (update_order_from_terminal approved 1 (with_state order1 "Aprobada") "0");
    [reflexivity | left; reflexivity | right; reflexivity].
Defined.

Lemma create_customer_conflict_witness :
  load_errors CustomerSchema false alba_body = []
  /\ dict_get alba_body "email" = Some (JStr "ana@x.com")
  /\ dict_get alba_body "phone" = Some (JStr "5550000000")
  /\ In ana (customers registered)
  /\ classify (snd (create_customer registered alba_body)) = Some ConflictError
  /\ fst (create_customer registered alba_body) = registered.
Proof.
  split; [reflexivity|]. split; [reflexivity|]. split; [reflexivity|].
  split; [left; reflexivity|].
  apply (create_customer_conflict registered alba_body
           (JStr "ana@x.com") (JStr "5550000000") ana);
    [reflexivity | reflexivity | reflexivity | left; reflexivity
    | left; reflexivity].
Defined.


Lemma get_order_item_count_witness :
  query_order (serve create_all scenario) 1
  = Some (with_state order1 "Aprobada")
  /\ items_created false 1 create_all scenario = 1%nat
  /\ exists view l,
       get_order (serve create_all scenario) 1
       = (serve create_all scenario, Ok view)
       /\ member "items" view = Some (JList l)
       /\ List.length l = items_created false 1 create_all scenario
       /\ items_created false 1 create_all scenario
          = items_created true 1 create_all scenario.
Proof.
  split; [reflexivity|]. split; [reflexivity|].
  apply (get_order_item_count scenario 1 (with_state order1 "Aprobada")).
  reflexivity.
Defined.


(** ** Inputs at which the statements of the specification fail *)



(** C5.  The second registration has Ana's email and a name of two
    characters: the answer is the validation error on [name], not the
    duplicate message. *)
Lemma create_customer_duplicate_not_conflict :
  create_customer create_all ana_body = (registered, Ok (customer_schema_dump ana))
  /\ In ana (customers registered)
  /\ dict_get al_body "email" = Some (Customer.email ana)
  /\ create_customer registered al_body
     = (registered,
        BadRequest (JDict [("name", messages "Shorter than minimum length 3.")]))
  /\ classify (snd (create_customer registered al_body)) = Some ValidationError
  /\ classify (snd (create_customer registered al_body)) <> Some ConflictError.
Proof.
  repeat split; try reflexivity; [now left | discriminate].
Qed.


(** C9.  The order has an item: the answer of GET /order/1 holds Ana's
    record, as the customer of the order nested in the item.  And no order
    has the id 2147483648, for which the lookup raises [DataError]. *)
Lemma get_order_nests_customer :
  get_order stocked 1 = (stocked, Ok (orderItems_schema_dump stocked order1))
  /\ at_path [inl "items"; inr 0%nat; inl "order"; inl "customer"]
       (orderItems_schema_dump stocked order1)
     = Some (customer_schema_dump ana)
  /\ occurs "customer" (orderItems_schema_dump stocked order1) = true
  /\ query_order stocked 2147483648 = None
  /\ get_order stocked 2147483648 = (stocked, Unhandled DataError).
Proof. repeat split. Qed.


(* ================================================================== *)
(** * Every reachable store is consistent *)
(* ================================================================== *)

Lemma NoDup_snoc {A : Type} (l : list A) (x : A) :
  NoDup l -> ~ In x l -> NoDup (l ++ [x]).
Proof.
  intros ND N. apply NoDup_app; [assumption | repeat constructor; auto |].
  intros y Hy [<-|[]]. contradiction.
Qed.

Lemma Forall_snoc {A : Type} (P : A -> Prop) (l : list A) (x : A) :
  Forall P l -> P x -> Forall P (l ++ [x]).
Proof. intros. apply Forall_app. split; auto. Qed.

Lemma below_fresh (bound : Z) (ids : list Z) :
  Forall (fun i => i < bound) ids -> ~ In bound ids.
Proof.
  intros F HI. rewrite Forall_forall in F. specialize (F _ HI). lia.
Qed.

Lemma below_next (bound : Z) (ids : list Z) :
  Forall (fun i => i < bound) ids -> Forall (fun i => i < bound + 1) ids.
Proof. apply Forall_impl. intros; lia. Qed.

(** A query by primary key finds a row exactly when the key is in the
    table. *)
Lemma query_customer_None (s : db) (id : Z) :
  in_range id = true ->
  query_customer s id = None <-> ~ In id (customer_ids s).
Proof.
  intros R. destruct (query_customer_in_range s id R) as [-> _].
  unfold customer_ids. split.
  - intros H HI. apply in_map_iff in HI as (c & <- & Hc).
    apply (find_none _ _ H) in Hc. now rewrite Z.eqb_refl in Hc.
  - intros N. destruct (find _ _) as [c|] eqn:E; [|reflexivity].
    apply find_some in E as [Hc E]. apply Z.eqb_eq in E. subst.
    exfalso. apply N. now apply in_map.
Qed.

Lemma query_order_None (s : db) (id : Z) :
  in_range id = true ->
  query_order s id = None <-> ~ In id (order_ids s).
Proof.
  intros R. destruct (query_order_in_range s id R) as [-> _].
  unfold order_ids. split.
  - intros H HI. apply in_map_iff in HI as (c & <- & Hc).
    apply (find_none _ _ H) in Hc. now rewrite Z.eqb_refl in Hc.
  - intros N. destruct (find _ _) as [c|] eqn:E; [|reflexivity].
    apply find_some in E as [Hc E]. apply Z.eqb_eq in E. subst.
    exfalso. apply N. now apply in_map.
Qed.

(** Rewriting the rows that have a key by a row with the same key leaves
    the keys of the table as they are. *)
Lemma map_rewrite_keys {A : Type} (key : A -> Z) (new : A) (l : list A) :
  map key (map (fun a => if key a =? key new then new else a) l) = map key l.
Proof.
  induction l as [|a l IH]; simpl; [reflexivity|]. rewrite IH. f_equal.
  destruct (key a =? key new) eqn:E; [|reflexivity].
  apply Z.eqb_eq in E. congruence.
Qed.

Lemma In_map_rewrite {A : Type} (key : A -> Z) (new : A) (l : list A) (x : A) :
  In x (map (fun a => if key a =? key new then new else a) l) ->
  x = new \/ (In x l /\ key x <> key new).
Proof.
  intros H. apply in_map_iff in H as (a & E & Ha).
  destruct (key a =? key new) eqn:K; [now left|].
  apply Z.eqb_neq in K. subst. now right.
Qed.

(** Where keys are distinct, a rewrite touches one row. *)
Lemma map_rewrite_absent {A : Type} (key : A -> Z) (k : Z) (new : A)
  (l : list A) :
  ~ In k (map key l) ->
  map (fun a => if key a =? k then new else a) l = l
  /\ filter (fun a => negb (key a =? k)) l = l.
Proof.
  induction l as [|a l IH]; simpl; [auto|]. intros N.
  destruct (key a =? k) eqn:E.
  - apply Z.eqb_eq in E. tauto.
  - simpl. destruct IH as [-> ->]; tauto.
Qed.

(** A unique column stays unique under an accepted update. *)
Lemma unique_after_update (col : Customer.t -> json) (old new : Customer.t)
  (l : list Customer.t) :
  NoDup (map Customer.id l) ->
  NoDup (map col l) ->
  In old l ->
  json_eqb (col new) (col old)
  || negb (taken col (col new)
             (filter (fun c => negb (Customer.id c =? Customer.id old)) l))
  = true ->
  NoDup (map col
           (map (fun c => if Customer.id c =? Customer.id old then new else c) l)).
Proof.
  induction l as [|c l IH]; simpl; [constructor|].
  intros Nid Ncol Hin Acc.
  inversion Nid as [|? ? Hid Nid']; subst.
  inversion Ncol as [|? ? Hcol Ncol']; subst.
  destruct (Customer.id c =? Customer.id old) eqn:E; simpl in *.
  - apply Z.eqb_eq in E.
    assert (c = old) as ->.
    { destruct Hin as [|Hin]; [assumption|]. exfalso. apply Hid.
      rewrite E. now apply in_map. }
    destruct (map_rewrite_absent Customer.id (Customer.id old) new l Hid)
      as [-> F].
    rewrite F in Acc. constructor; [|assumption].
    apply orb_true_iff in Acc as [Eq|T].
    + apply json_eqb_eq in Eq. now rewrite Eq.
    + apply negb_true_iff in T. intros HI.
      assert (taken col (col new) l = true); [|congruence].
      apply taken_spec. apply in_map_iff in HI as (x & Ex & Hx). eauto.
  - assert (In old l) as Hin'.
    { destruct Hin as [->|]; [|assumption]. now rewrite Z.eqb_refl in E. }
    constructor.
    + intros HI. apply in_map_iff in HI as (x & Ex & Hx).
      apply in_map_iff in Hx as (y & Ey & Hy).
      destruct (Customer.id y =? Customer.id old) eqn:Ky.
      * subst x. apply orb_true_iff in Acc as [Eq|T].
        -- apply json_eqb_eq in Eq. apply Hcol. rewrite <- Ex, Eq.
           now apply in_map.
        -- apply negb_true_iff in T. apply orb_false_iff in T as [T _].
           rewrite Ex in T. unfold json_eqb in T.
           destruct (json_eq_dec (col c) (col c)); [discriminate|congruence].
      * subst y. apply Hcol. rewrite <- Ex. now apply in_map.
    + apply IH; auto.
      apply orb_true_iff in Acc as [Eq|T]; apply orb_true_iff; [now left|].
      right. apply negb_true_iff in T. apply orb_false_iff in T as [_ T].
      now apply negb_true_iff.
Qed.

Lemma NoDup_map_filter {A B : Type} (column : A -> B) (keep : A -> bool)
  (rows : list A) (distinct : NoDup (map column rows)) :
  NoDup (map column (filter keep rows)).
Proof.
  revert distinct. rename column into f, keep into p, rows into l.
  induction l as [|a l IH]; simpl; [auto|]. intros N.
  inversion N as [|? ? Hn N']; subst.
  destruct (p a); simpl; auto. constructor; auto.
  intros HI. apply Hn. apply in_map_iff in HI as (x & E & Hx).
  apply filter_In in Hx as [Hx _]. rewrite <- E. now apply in_map.
Qed.

Lemma Forall_map_filter {A B : Type} (P : B -> Prop) (f : A -> B)
  (p : A -> bool) (l : list A) :
  Forall P (map f l) -> Forall P (map f (filter p l)).
Proof.
  rewrite !Forall_forall. intros H y HI. apply H.
  apply in_map_iff in HI as (x & E & Hx). apply filter_In in Hx as [Hx _].
  rewrite <- E. now apply in_map.
Qed.

(** Each write keeps the store consistent. *)
Lemma write_consistent (s s' : db) :
  consistent s -> write s s' -> consistent s'.
Proof.
  intros [Ck Cs Ok' Os Ik Is Ue Up Oc Ocr Io Ior St] W.
  destruct W as [| n e p a t s' c H | old new s' Hin Eid H | c s' H
                 | cid date s' o Rc Hc H | o state Ho Hst
                 | oid w l s' i Ro Ho H].
  - now constructor.
  - apply add_customer_inr in H as (-> & _ & _ & Te & Tp & ->).
    constructor; unfold customer_ids, order_ids, item_ids in *; simpl;
      try assumption; rewrite ?map_app; simpl.
    + apply NoDup_snoc; [assumption | now apply below_fresh].
    + apply Forall_snoc; [now apply below_next | lia].
    + apply NoDup_snoc; [assumption|]. intros HI.
      apply in_map_iff in HI as (x & Ex & Hx).
      assert (taken Customer.email e (customers s) = true);
        [apply taken_spec; eauto | congruence].
    + apply NoDup_snoc; [assumption|]. intros HI.
      apply in_map_iff in HI as (x & Ex & Hx).
      assert (taken Customer.phone p (customers s) = true);
        [apply taken_spec; eauto | congruence].
    + eapply Forall_impl; [|exact Oc]. intros o Hi. apply in_or_app. now left.
  - apply commit_customer_inr in H as (_ & G & ->).
    unfold update_accepted, other_customers in G.
    apply andb_true_iff in G as [G Ap]. apply andb_true_iff in G as [_ Ae].
    rewrite <- Eid.
    constructor; unfold customer_ids, order_ids, item_ids in *; simpl;
      try assumption; rewrite ?map_rewrite_keys; try assumption.
    + rewrite Eid. apply unique_after_update; auto.
    + rewrite Eid. apply unique_after_update; auto.
  - unfold remove_customer in H.
    destruct (orders_of s (Customer.id c)) eqn:G; [|discriminate].
    injection H as <-. unfold other_customers.
    constructor; unfold customer_ids, order_ids, item_ids in *; simpl;
      try assumption.
    + now apply NoDup_map_filter.
    + now apply Forall_map_filter.
    + now apply NoDup_map_filter.
    + now apply NoDup_map_filter.
    + rewrite Forall_forall in *. intros o Hi.
      specialize (Oc o Hi). apply in_map_iff in Oc as (x & Ex & Hx).
      apply in_map_iff. exists x. split; [assumption|].
      apply filter_In. split; [assumption|].
      apply negb_true_iff, Z.eqb_neq. intros E.
      assert (In o (orders_of s (Customer.id c))) as HI.
      { apply filter_In. split; [assumption|]. apply Z.eqb_eq. congruence. }
      rewrite G in HI. contradiction.
  - unfold add_order in H. destruct (negb (is_null date)); [|discriminate].
    injection H as <- <-.
    constructor; unfold customer_ids, order_ids, item_ids in *; simpl;
      try assumption; rewrite ?map_app; simpl.
    + apply NoDup_snoc; [assumption | now apply below_fresh].
    + apply Forall_snoc; [now apply below_next | lia].
    + apply Forall_snoc; assumption.
    + apply Forall_snoc; assumption.
    + eapply Forall_impl; [|exact Io]. intros i Hi. apply in_or_app. now left.
    + apply Forall_snoc; [assumption|]. simpl. auto.
  - assert (Order.id (with_state o state) = Order.id o) as Eid by reflexivity.
    constructor; unfold customer_ids, order_ids, item_ids in *; simpl;
      try assumption; rewrite <- ?Eid, ?map_rewrite_keys; try assumption.
    + rewrite Forall_forall in *. intros x Hx.
      apply In_map_rewrite in Hx as [->|[Hx _]]; [|now apply Oc].
      simpl. now apply Oc.
    + rewrite Forall_forall in *. intros x Hx.
      apply In_map_rewrite in Hx as [->|[Hx _]]; [|now apply Ocr].
      simpl. now apply Ocr.
    + rewrite Forall_forall in *. intros x Hx.
      apply In_map_rewrite in Hx as [->|[Hx _]]; [|now apply St].
      unfold states. simpl. destruct Hst as [-> | ->]; tauto.
  - unfold add_item in H.
    destruct (negb (is_null w) && negb (is_null l)); [|discriminate].
    injection H as <- <-.
    constructor; unfold customer_ids, order_ids, item_ids in *; simpl;
      try assumption; rewrite ?map_app; simpl.
    + apply NoDup_snoc; [assumption | now apply below_fresh].
    + apply Forall_snoc; [now apply below_next | lia].
    + apply Forall_snoc; assumption.
    + apply Forall_snoc; assumption.
Qed.

Lemma create_all_consistent : consistent create_all.
Proof. constructor; simpl; constructor. Qed.

Section Reachable.
Context {V : Validators} {engine : Engine}.

(** What each view function does to the store is one of the writes. *)
Lemma dispatch_write (s : db) (r : request) : write s (fst (dispatch s r)).
Proof.
  destruct r; simpl;
    unfold create_customer, get_customers, update_customer, delete_customer,
      create_order, get_orders, update_order, create_item, get_order,
      subscript;
    try match goal with
    | |- context [first_customer s ?id] =>
        destruct (first_customer_cases s id)
          as [(_ & -> & _) | [(_ & -> & _) | (found & ? & -> & ?)]]
    | |- context [first_order s ?id] =>
        destruct (first_order_cases s id)
          as [(_ & -> & _) | [(_ & -> & _) | (found & ? & -> & ?)]]
    end;
    repeat case_match; subst; simpl; try apply write_nothing.
  - eapply write_add_customer; eassumption.
  - match goal with
    | H : query_customer _ _ = Some _ |- _ =>
        apply query_customer_found in H as [? ?]
    end.
    eapply write_commit_customer; [eassumption | apply assign_all_id | eassumption].
  - eapply write_remove_customer; eassumption.
  - match goal with
    | H : query_customer _ _ = Some _ |- _ =>
        apply query_customer_found in H as [? ?]
    end.
    eapply write_add_order; [| |eassumption];
      [assumption | subst; now apply in_map].
  - match goal with
    | H : query_order _ _ = Some _ |- _ => apply query_order_found in H as [? ?]
    end.
    match goal with
    | H : In ?o (orders s) |- _ => apply (write_commit_order s o Aprobada); auto
    end.
  - match goal with
    | H : query_order _ _ = Some _ |- _ => apply query_order_found in H as [? ?]
    end.
    match goal with
    | H : In ?o (orders s) |- _ => apply (write_commit_order s o Anulada); auto
    end.
  - match goal with
    | H : query_order _ _ = Some _ |- _ => apply query_order_found in H as [? ?]
    end.
    eapply write_add_item; [| |eassumption];
      [assumption | subst; now apply in_map].
Qed.

Lemma dispatch_consistent (s : db) (r : request) :
  consistent s -> consistent (fst (dispatch s r)).
Proof. intros C. eapply write_consistent; [exact C | apply dispatch_write]. Qed.

Lemma serve_consistent (rs : list request) (s : db) :
  consistent s -> consistent (serve s rs).
Proof.
  revert s. induction rs as [|r rs IH]; intros s C; [exact C|].
  rewrite serve_cons. apply IH. now apply dispatch_consistent.
Qed.

End Reachable.

(* ================================================================== *)
(** * Invariants of the reachable stores *)
(* ================================================================== *)

(** Rows that agree on a column of distinct values are the same row. *)
Lemma NoDup_map_eq {A B : Type} (f : A -> B) (l : list A) (a b : A) :
  NoDup (map f l) -> In a l -> In b l -> f a = f b -> a = b.
Proof.
  induction l as [|x l IH]; simpl; [tauto|]. intros N Ha Hb E.
  inversion N as [|? ? Hn N']; subst.
  destruct Ha as [->|Ha], Hb as [->|Hb]; auto.
  - exfalso. apply Hn. rewrite E. now apply in_map.
  - exfalso. apply Hn. rewrite <- E. now apply in_map.
Qed.

Lemma query_customer_Some (s : db) (id : Z) :
  in_range id = true ->
  In id (customer_ids s) -> exists c, query_customer s id = Some c.
Proof.
  intros R H. destruct (query_customer s id) as [c|] eqn:E; [eauto|].
  now apply query_customer_None in E.
Qed.

Lemma query_order_Some (s : db) (id : Z) :
  in_range id = true ->
  In id (order_ids s) -> exists o, query_order s id = Some o.
Proof.
  intros R H. destruct (query_order s id) as [o|] eqn:E; [eauto|].
  now apply query_order_None in E.
Qed.

Section Integrity.
Context {V : Validators} {engine : Engine}.

(** X1.  After any sequence of requests served from the empty store, the
    primary keys of each of the three tables are pairwise distinct, also
    after customers were deleted and rows were updated. *)
Theorem primary_keys_unique (rs : list request) :
  let s := serve create_all rs in
  NoDup (customer_ids s) /\ NoDup (order_ids s) /\ NoDup (item_ids s).
Proof.
  destruct (serve_consistent rs create_all create_all_consistent).
  simpl. auto.
Qed.

(** X2.  After any sequence of requests served from the empty store, the
    order of every persisted item is found by its [order_id]: items never
    dangle. *)
Theorem item_order_resolves (rs : list request) (i : Item.t) :
  In i (items (serve create_all rs)) ->
  exists o, query_order (serve create_all rs) (Item.order_id i) = Some o
            /\ Order.id o = Item.order_id i.
Proof.
  intros H.
  destruct (serve_consistent rs create_all create_all_consistent)
    as [_ _ _ _ _ _ _ _ _ _ Io Ior _].
  rewrite Forall_forall in Io, Ior.
  destruct (query_order_Some _ _ (Ior _ H) (Io _ H)) as (o & E).
  exists o. split; [assumption|]. now apply query_order_found in E.
Qed.

Lemma reachable_order_customer (rs : list request) (o : Order.t) :
  In o (orders (serve create_all rs)) ->
  exists c, query_customer (serve create_all rs) (Order.customer_id o) = Some c
            /\ Customer.id c = Order.customer_id o.
Proof.
  intros H.
  destruct (serve_consistent rs create_all create_all_consistent)
    as [_ _ _ _ _ _ _ _ Oc Ocr _ _ _].
  rewrite Forall_forall in Oc, Ocr.
  destruct (query_customer_Some _ _ (Ocr _ H) (Oc _ H)) as (c & E).
  exists c. split; [assumption|]. now apply query_customer_found in E.
Qed.

(** X3.  After any sequence of requests served from the empty store, the
    customer of every persisted order is found by its [customer_id]:
    DELETE /customers/<id> never leaves an order without its customer. *)
Theorem order_customer_resolves (rs : list request) (o : Order.t) :
  In o (orders (serve create_all rs)) ->
  exists c, query_customer (serve create_all rs) (Order.customer_id o) = Some c
            /\ Customer.id c = Order.customer_id o.
Proof.
  apply reachable_order_customer.
Qed.

(** X4.  After any sequence of requests served from the empty store, no
    two persisted customers share an email or a phone, whether the values
    came from a registration or from an update. *)
Theorem email_phone_unique (rs : list request) (c c' : Customer.t) :
  In c (customers (serve create_all rs)) ->
  In c' (customers (serve create_all rs)) ->
  Customer.email c = Customer.email c' \/ Customer.phone c = Customer.phone c' ->
  c = c'.
Proof.
  intros H H'.
  destruct (serve_consistent rs create_all create_all_consistent)
    as [_ _ _ _ _ _ Ue Up _ _ _ _ _].
  intros [E|E].
  - exact (NoDup_map_eq Customer.email _ _ _ Ue H H' E).
  - exact (NoDup_map_eq Customer.phone _ _ _ Up H H' E).
Qed.

(** X5.  After any sequence of requests served from the empty store, the
    state of every persisted order is one of "Solicitada", "Aprobada" and
    "Anulada". *)
Theorem order_state_vocabulary (rs : list request) (o : Order.t) :
  In o (orders (serve create_all rs)) ->
  Order.state o = Solicitada \/ Order.state o = Aprobada
  \/ Order.state o = Anulada.
Proof.
  intros H.
  destruct (serve_consistent rs create_all create_all_consistent)
    as [_ _ _ _ _ _ _ _ _ _ _ _ St].
  rewrite Forall_forall in St. specialize (St _ H).
  unfold states in St. simpl in St. intuition.
Qed.

(** X6.  A request that is not answered with 200, and any GET, leaves the
    store exactly as it was: a refused or failed request writes nothing. *)
Theorem refused_request_writes_nothing (s : db) (r : request) :
  is_ok (snd (dispatch s r)) = false \/ is_get r = true ->
  fst (dispatch s r) = s.
Proof.
  intros H.
  assert (is_get r = true -> fst (dispatch s r) = s) as G.
  { destruct r; simpl; try discriminate; try reflexivity.
    intros _. unfold get_order. now destruct (first_order s id) as [|[|]]. }
  destruct H as [H|H]; [|auto]. revert H.
  destruct r; simpl;
    unfold create_customer, get_customers, update_customer, delete_customer,
      create_order, get_orders, update_order, create_item, get_order,
      subscript;
    repeat case_match; simpl; intros; try reflexivity; discriminate.
Qed.


End Integrity.

(* ================================================================== *)
(** * Customers: deleting, keeping, listing *)
(* ================================================================== *)

Lemma find_filter_other {A : Type} (key : A -> Z) (i j : Z) (l : list A) :
  j <> i ->
  find (fun a => key a =? j) (filter (fun a => negb (key a =? i)) l)
  = find (fun a => key a =? j) l.
Proof.
  intros N. induction l as [|a l IH]; simpl; [reflexivity|].
  destruct (key a =? i) eqn:Ei; simpl.
  - apply Z.eqb_eq in Ei. rewrite IH.
    destruct (key a =? j) eqn:Ej; [|reflexivity].
    apply Z.eqb_eq in Ej. congruence.
  - now rewrite IH.
Qed.

Lemma find_filter_same {A : Type} (key : A -> Z) (i : Z) (l : list A) :
  find (fun a => key a =? i) (filter (fun a => negb (key a =? i)) l) = None.
Proof.
  induction l as [|a l IH]; simpl; [reflexivity|].
  destruct (key a =? i) eqn:Ei; simpl; [assumption|]. now rewrite Ei.
Qed.

Lemma find_snoc {A : Type} (p : A -> bool) (l : list A) (x : A) :
  find p (l ++ [x])
  = match find p l with
    | Some a => Some a
    | None => if p x then Some x else None
    end.
Proof.
  induction l as [|a l IH]; simpl; [reflexivity|].
  destruct (p a); [reflexivity | assumption].
Qed.

Lemma find_rewrite_other {A : Type} (key : A -> Z) (new : A) (j : Z)
  (l : list A) :
  j <> key new ->
  find (fun a => key a =? j)
    (map (fun a => if key a =? key new then new else a) l)
  = find (fun a => key a =? j) l.
Proof.
  intros N. induction l as [|a l IH]; simpl; [reflexivity|].
  destruct (key a =? key new) eqn:E.
  - apply Z.eqb_eq in E. rewrite IH.
    destruct (key new =? j) eqn:E1; [apply Z.eqb_eq in E1; congruence|].
    destruct (key a =? j) eqn:E2; [apply Z.eqb_eq in E2; congruence|].
    reflexivity.
  - now rewrite IH.
Qed.

Lemma orders_of_nonempty (s : db) (id : Z) :
  orders_of s id <> [] <->
  exists o, In o (orders s) /\ Order.customer_id o = id.
Proof.
  unfold orders_of. split.
  - destruct (filter _ (orders s)) as [|o l] eqn:E; [congruence|]. intros _.
    assert (In o (o :: l)) as H by now left. rewrite <- E in H.
    apply filter_In in H as [H K]. apply Z.eqb_eq in K. eauto.
  - intros (o & H & K) E.
    assert (In o (filter (fun o => Order.customer_id o =? id) (orders s))) as HI
      by (apply filter_In; split; [assumption | now apply Z.eqb_eq]).
    rewrite E in HI. contradiction.
Qed.

(** A write removes no customer that has an order, and none of the
    orders. *)
Lemma write_keeps_customer_with_order (s s' : db) (id : Z) :
  consistent s -> write s s' ->
  In id (customer_ids s) -> orders_of s id <> [] ->
  In id (customer_ids s') /\ orders_of s' id <> [].
Proof.
  intros C W Hc Ho. apply orders_of_nonempty in Ho as (o & Ho & Eo).
  rewrite orders_of_nonempty.
  destruct W as [| n e p a t s' c H | old new s' Hin Eid H | c s' H
                 | cid date s' o' Rcid Hcid H | o' state Ho' Hst
                 | oid w l s' i Roid Hoid H].
  - eauto.
  - apply add_customer_inr in H as (-> & _ & _ & _ & _ & ->).
    unfold customer_ids. simpl. rewrite map_app.
    split; [apply in_or_app; now left | eauto].
  - apply commit_customer_inr in H as (_ & _ & ->).
    unfold customer_ids. simpl.
    rewrite <- Eid, map_rewrite_keys. eauto.
  - unfold remove_customer in H.
    destruct (orders_of s (Customer.id c)) eqn:G; [|discriminate].
    injection H as <-. unfold customer_ids, other_customers. simpl.
    split; [|eauto].
    apply in_map_iff in Hc as (x & Ex & Hx). apply in_map_iff.
    exists x. split; [assumption|]. apply filter_In. split; [assumption|].
    apply negb_true_iff, Z.eqb_neq. intros E.
    assert (orders_of s (Customer.id c) <> []) as K; [|contradiction].
    apply orders_of_nonempty. exists o. split; [assumption|]. congruence.
  - unfold add_order in H. destruct (negb (is_null date)); [|discriminate].
    injection H as <- <-. simpl. split; [assumption|].
    exists o. split; [apply in_or_app; now left | assumption].
  - simpl. split; [assumption|].
    destruct (Z.eq_dec (Order.id o) (Order.id o')) as [E|N].
    + assert (o = o') as ->
        by (eapply (NoDup_map_eq Order.id); eauto; apply (order_keys _ C)).
      exists (with_state o' state). split; [|assumption].
      apply in_map_iff. exists o'. split; [|assumption].
      simpl. now rewrite Z.eqb_refl.
    + exists o. split; [|assumption].
      apply in_map_iff. exists o. split; [|assumption].
      simpl. apply Z.eqb_neq in N. now rewrite N.
  - unfold add_item in H.
    destruct (negb (is_null w) && negb (is_null l)); [|discriminate].
    injection H as <- <-. simpl. eauto.
Qed.

Section Customers.
Context {V : Validators} {engine : Engine}.

(** X8.  When DELETE /customers/<id> answers 200, the payload is the
    record as it was, the record is gone, every other customer is found as
    before, and orders and items are untouched. *)
Theorem delete_customer_removes (s s' : db) (id : Z) (payload : json) :
  delete_customer s id = (s', Ok payload) ->
  exists c,
    query_customer s id = Some c
    /\ payload = customer_schema_dump c
    /\ query_customer s' id = None
    /\ (forall j, j <> id -> query_customer s' j = query_customer s j)
    /\ orders s' = orders s /\ items s' = items s.
Proof.
  unfold delete_customer, remove_customer.
  destruct (first_customer_cases s id)
    as [(_ & -> & _) | [(_ & -> & _) | (c & R & -> & Hc)]];
    [discriminate | discriminate |].
  pose proof (query_customer_found _ _ _ Hc) as [_ Eid].
  destruct (orders_of s (Customer.id c)); [|discriminate].
  intros [= <- <-]. exists c. split; [assumption|].
  unfold query_customer, first_customer, other_customers. simpl.
  rewrite Eid, R. repeat split; [apply find_filter_same|].
  intros j N. destruct (in_range j); [|reflexivity].
  now rewrite find_filter_other.
Qed.

(** X9.  A customer who has an order stays: after any further requests
    the customer is still found, still has an order, and DELETE
    /customers/<id> ends in the store's [IntegrityError] without
    writing. *)
Theorem customer_with_order_stays (rs rs' : list request) (o : Order.t) :
  In o (orders (serve create_all rs)) ->
  let id := Order.customer_id o in
  let s' := serve (serve create_all rs) rs' in
  (exists c, query_customer s' id = Some c)
  /\ orders_of s' id <> []
  /\ delete_customer s' id = (s', Unhandled IntegrityError).
Proof.
  intros Ho id s'.
  pose proof (serve_consistent rs create_all create_all_consistent) as C.
  assert (In id (customer_ids (serve create_all rs))) as Hc.
  { pose proof (order_customer _ C) as F. rewrite Forall_forall in F.
    now apply F. }
  assert (orders_of (serve create_all rs) id <> []) as Hn
    by (apply orders_of_nonempty; eauto).
  assert (In id (customer_ids s') /\ orders_of s' id <> []) as [Hc' Hn'].
  { subst s'. revert C Hc Hn. generalize (serve create_all rs) as s.
    induction rs' as [|r rs' IH]; intros s C Hc Hn; [auto|].
    rewrite serve_cons.
    destruct (write_keeps_customer_with_order s (fst (dispatch s r)) id C
                (dispatch_write s r) Hc Hn) as [Hc1 Hn1].
    apply IH; auto. now apply dispatch_consistent. }
  assert (in_range id = true) as R.
  { pose proof (order_customer_range _ C) as F. rewrite Forall_forall in F.
    now apply F. }
  destruct (query_customer_Some _ _ R Hc') as (c & Ec).
  split; [eauto|]. split; [assumption|].
  unfold delete_customer, remove_customer.
  rewrite (first_customer_Some _ _ _ Ec).
  apply query_customer_found in Ec as [_ ->].
  destruct (orders_of s' id); [contradiction | reflexivity].
Qed.


End Customers.

(* ================================================================== *)
(** * Orders and items: round trips and frames *)
(* ================================================================== *)

Lemma filter_none {A : Type} (p : A -> bool) (l : list A) :
  (forall x, In x l -> p x = false) -> filter p l = [].
Proof.
  induction l as [|a l IH]; simpl; [reflexivity|]. intros H.
  rewrite (H a) by now left. apply IH. intros x Hx. apply H. now right.
Qed.

Section Orders.
Context {V : Validators} {engine : Engine}.

(** X11.  After any sequence of requests served from the empty store, a
    successful POST /order/<id> is seen by GET /order/<new id>: the
    identifier in the answer was not in use, the answer shows the date of
    the body as the column gives it back in the format of the schema, and
    the view under the identifier, where the key admits the lookup, shows
    the customer, the timestamp of that date, the state "Solicitada" and an
    empty list of items. *)
Theorem create_order_then_get (rs : list request) (id : Z) (body : dict)
  (s' : db) (payload : json) :
  let s := serve create_all rs in
  create_order s id body = (s', Ok payload) ->
  exists new_id date,
    member "id" payload = Some (JInt new_id)
    /\ ~ In new_id (order_ids s)
    /\ dict_get body "date" = Some date
    /\ member "date" payload = Some (dump_date "%Y-%m-%d" date)
    /\ (in_range new_id = true ->
        get_order s' new_id
        = (s', Ok (JDict [ ("id", JInt new_id);
                           ("customer_id", JInt id);
                           ("date", dump_datetime date);
                           ("state", JStr "Solicitada");
                           ("items", JList []) ]))).
Proof.
  intros s.
  pose proof (serve_consistent rs create_all create_all_consistent) as C.
  fold s in C. unfold create_order, subscript, add_order.
  destruct (first_customer s id) as [|[c|]]; [discriminate| |discriminate].
  destruct (load_errors OrderSchema false body); [|discriminate].
  destruct (dict_get body "date") as [d|]; [|discriminate].
  destruct (negb (is_null d)); [|discriminate].
  intros [= <- <-].
  pose proof (below_fresh _ _ (order_sequence _ C)) as F.
  exists (next_order s), d. split; [reflexivity|]. split; [exact F|].
  split; [reflexivity|]. split; [reflexivity|]. intros R.
  assert (query_order s (next_order s) = None) as Q
    by now apply query_order_None.
  destruct (query_order_in_range s _ R) as [Q' _]. rewrite Q' in Q.
  unfold get_order, first_order. rewrite R. simpl. rewrite find_snoc, Q.
  simpl. rewrite Z.eqb_refl.
  unfold orderItems_schema_dump, items_of. simpl.
  rewrite filter_none.
  - now rewrite (Permutation_nil (Permutation_sym (item_rows_all []))).
  - intros i Hi. apply Z.eqb_neq. intros E. apply F. rewrite <- E.
    pose proof (item_order _ C) as Io. rewrite Forall_forall in Io.
    now apply Io.
Qed.

(** X12.  When POST /item/<id> answers 200, the payload shows the order
    and the width and the length of the body as the doubles of the
    columns, and GET /order/<id> lists what it listed before and the
    payload, in the order the engine returns the rows; the items of every
    other order are as they were. *)
Theorem create_item_then_get (s s' : db) (id : Z) (body : dict)
  (payload : json) :
  create_item s id body = (s', Ok payload) ->
  exists width length view view' listed listed',
    dict_get body "width" = Some width
    /\ dict_get body "length" = Some length
    /\ member "width" payload = Some (dump_float width)
    /\ member "length" payload = Some (dump_float length)
    /\ member "order_id" payload = Some (JInt id)
    /\ get_order s id = (s, Ok view)
    /\ get_order s' id = (s', Ok view')
    /\ member "items" view = Some (JList listed)
    /\ member "items" view' = Some (JList listed')
    /\ Permutation listed' (payload :: listed)
    /\ forall j, j <> id -> items_of s' j = items_of s j.
Proof.
  unfold create_item, subscript, add_item.
  destruct (first_order_cases s id)
    as [(_ & -> & _) | [(_ & -> & _) | (o & R & Q1 & Q)]];
    [discriminate | discriminate |]. rewrite Q1.
  pose proof (query_order_found _ _ _ Q) as [_ Eid].
  destruct (load_errors ItemSchema false body); [|discriminate].
  destruct (negb (Order.state o == "Solicitada")); [discriminate|].
  destruct (dict_get body "width") as [w|]; [|discriminate].
  destruct (dict_get body "length") as [l|]; [|discriminate].
  destruct (negb (is_null w) && negb (is_null l)); [|discriminate].
  intros [= <- <-]. unfold get_order, first_order in *. simpl. rewrite Q1.
  exists w, l. do 4 eexists.
  do 5 (split; [reflexivity|]).
  split; [reflexivity|]. split; [reflexivity|].
  split; [reflexivity|]. split; [reflexivity|].
  rewrite Eid. unfold items_of. simpl. split.
  - rewrite filter_app. simpl. rewrite Z.eqb_refl.
    set (i := Item.mk (next_item s) id w l).
    set (rows := filter (fun i => Item.order_id i =? id) (items s)).
    change (Permutation
              (map (item_schema_dump s) (item_rows (rows ++ [i])))
              (map (item_schema_dump s) (i :: item_rows rows))).
    apply Permutation_map.
    rewrite (item_rows_all (rows ++ [i])), (item_rows_all rows).
    symmetry. apply Permutation_cons_append.
  - intros j N. rewrite filter_app. simpl.
    apply Z.eqb_neq in N. rewrite Z.eqb_sym in N. rewrite N.
    apply app_nil_r.
Qed.

(** X13.  After any sequence of requests served from the empty store, GET
    /orders lists one entry per persisted order, and every entry carries
    the record of its customer, whose identifier is the [customer_id] of
    the entry. *)
Theorem get_orders_nests_customers (rs : list request) :
  let s := serve create_all rs in
  exists listed,
    get_orders s = (s, Ok (JList listed))
    /\ List.length listed = List.length (orders s)
    /\ forall entry, In entry listed ->
         exists c,
           In c (customers s)
           /\ member "customer" entry = Some (customer_schema_dump c)
           /\ member "customer_id" entry = Some (JInt (Customer.id c)).
Proof.
  intros s. pose proof (reachable_order_customer rs) as K. fold s in K.
  clearbody s. unfold get_orders. eexists. split; [reflexivity|].
  split; [now rewrite length_map, (Permutation_length (order_rows_all _))|].
  intros entry H.
  apply in_map_iff in H as (o & <- & Ho).
  apply (Permutation_in _ (order_rows_all _)) in Ho.
  destruct (K o Ho) as (c & Q & E).
  exists c. pose proof (query_customer_found _ _ _ Q) as [Hc _].
  split; [assumption|]. simpl. rewrite Q, E. auto.
Qed.

(** C9, as the code has it.  Served from the empty store, GET /order/<id>
    for an id that the Integer key can hold answers 400 "Order not found"
    (NotFoundError) when no order has the id.  Otherwise it answers 200
    with the columns of the order, [id], [customer_id], [date] (the
    timestamp of the column) and [state], with no [customer] member, and
    under [items] with every item of the order, in the order the engine
    returns the rows.  Each item shows its measures as the doubles of the
    columns and nests the order it belongs to and, inside that, the record
    of the customer of the order. *)
Theorem get_order_view (rs : list request) (id : Z) :
  let s := serve create_all rs in
  in_range id = true ->
  match query_order s id with
  | None =>
      ~ In id (order_ids s)
      /\ get_order s id = (s, BadRequest (JStr "Order not found"))
      /\ classify (snd (get_order s id)) = Some NotFoundError
  | Some order =>
      exists customer listed,
        query_customer s (Order.customer_id order) = Some customer
        /\ Permutation listed (items_of s id)
        /\ get_order s id
           = (s,
              Ok (JDict
                    [ ("id", JInt id);
                      ("customer_id", JInt (Order.customer_id order));
                      ("date", dump_datetime (Order.date order));
                      ("state", JStr (Order.state order));
                      ("items",
                        JList
                          (map
                             (fun i =>
                                JDict
                                  [ ("id", JInt (Item.id i));
                                    ("order_id", JInt id);
                                    ("width", dump_float (Item.width i));
                                    ("length", dump_float (Item.length i));
                                    ("order",
                                      JDict
                                        [ ("id", JInt id);
                                          ("customer_id",
                                            JInt (Order.customer_id order));
                                          ("date",
                                            dump_date "%Y-%m-%d"
                                              (Order.date order));
                                          ("state", JStr (Order.state order));
                                          ("customer",
                                            customer_schema_dump customer) ]) ])
                             listed)) ]))
  end.
Proof.
  intros s R. pose proof (reachable_order_customer rs) as K. fold s in K.
  clearbody s. destruct (query_order s id) as [order|] eqn:Q.
  - pose proof (query_order_found _ _ _ Q) as [Ho Eid].
    destruct (K order Ho) as (customer & Qc & _).
    exists customer, (item_rows (items_of s id)).
    split; [assumption|]. split; [apply item_rows_all|].
    unfold get_order. rewrite (first_order_Some _ _ _ Q).
    unfold orderItems_schema_dump. rewrite Eid. do 10 f_equal.
    apply map_ext_in. intros i Hi.
    apply (Permutation_in _ (item_rows_all _)) in Hi.
    apply filter_In in Hi as [_ Ei]. apply Z.eqb_eq in Ei.
    unfold item_schema_dump, order_schema_dump. rewrite Ei, Q. simpl.
    now rewrite Eid, Qc.
  - split; [now apply query_order_None|].
    unfold get_order. destruct (query_order_in_range s id R) as [_ ->].
    now rewrite Q.
Qed.

End Orders.

(* ================================================================== *)
(** * Updates twice, and items over time *)
(* ================================================================== *)

Lemma json_eqb_refl (a : json) : json_eqb a a = true.
Proof. now apply json_eqb_eq. Qed.

(** A customer is its identifier and its five columns. *)
Lemma customer_ext (c c' : Customer.t) :
  Customer.id c = Customer.id c' ->
  (forall k, In k columns -> getattr c k = getattr c' k) ->
  c = c'.
Proof.
  destruct c, c'. simpl. intros -> H.
  pose proof (H "name") as Hn. pose proof (H "email") as He.
  pose proof (H "phone") as Hp. pose proof (H "address") as Ha.
  pose proof (H "nationality") as Ht.
  unfold columns in *. simpl in *.
  injection (Hn ltac:(tauto)) as ->. injection (He ltac:(tauto)) as ->.
  injection (Hp ltac:(tauto)) as ->. injection (Ha ltac:(tauto)) as ->.
  injection (Ht ltac:(tauto)) as ->. reflexivity.
Qed.

(** What the loop of lines 158-160 leaves in a column. *)
Lemma assign_all_column (body : dict) (c : Customer.t) (k : string) :
  is_dict body -> In k columns ->
  getattr (assign_all c body) k
  = match dict_get body k with
    | Some v => Some v
    | None => getattr c k
    end.
Proof.
  intros D Hk. destruct (dict_get body k) as [v|] eqn:E.
  - now apply assign_all_present.
  - now apply assign_all_absent.
Qed.

Lemma assign_all_twice (body : dict) (c : Customer.t) :
  is_dict body -> assign_all (assign_all c body) body = assign_all c body.
Proof.
  intros D. apply customer_ext.
  - now rewrite !assign_all_id.
  - intros k Hk. rewrite (assign_all_column body (assign_all c body) k D Hk).
    rewrite (assign_all_column body c k D Hk).
    now destruct (dict_get body k).
Qed.

Lemma map_rewrite_twice {A : Type} (key : A -> Z) (k : Z) (new : A)
  (l : list A) :
  key new = k ->
  map (fun a => if key a =? k then new else a)
    (map (fun a => if key a =? k then new else a) l)
  = map (fun a => if key a =? k then new else a) l.
Proof.
  intros E. rewrite map_map. apply map_ext. intros a.
  destruct (key a =? k) eqn:Ka; [|now rewrite Ka].
  now rewrite E, Z.eqb_refl.
Qed.

Lemma update_fits_refl (c : Customer.t) : update_fits c c = true.
Proof. unfold update_fits. now rewrite !json_eqb_refl. Qed.

(** One request adds at most one item, after the ones there are. *)
Section Append.
Context {V : Validators} {engine : Engine}.

Lemma dispatch_items_grow (s : db) (r : request) :
  exists l, items (fst (dispatch s r)) = items s ++ l.
Proof.
  destruct r; try (exists []; rewrite app_nil_r; apply dispatch_items;
                   discriminate).
  simpl. destruct (create_item_outcome s id body) as [[-> _] | (i & E & _)].
  - exists []. now rewrite app_nil_r.
  - eauto.
Qed.

(** X14.  PUT /customers/<id> is idempotent: when it answers 200 for a
    dictionary body, the same request once more answers the same and
    leaves the store as the first one left it. *)
Theorem update_customer_idempotent (s s' : db) (id : Z) (body : dict)
  (payload : json) :
  is_dict body ->
  update_customer s id body = (s', Ok payload) ->
  update_customer s' id body = (s', Ok payload).
Proof.
  intros D. unfold update_customer.
  destruct (first_customer_cases s id)
    as [(_ & -> & _) | [(_ & -> & _) | (c & R & -> & Q)]];
    [discriminate | discriminate |].
  destruct (load_errors CustomerSchema true body) eqn:L; [|discriminate].
  destruct (commit_customer s c (assign_all c body)) as [e|s1] eqn:K;
    [discriminate|].
  intros [= <- <-].
  pose proof (query_customer_found _ _ _ Q) as [_ Eid].
  assert (Customer.id (assign_all c body) = id) as Enew
    by now rewrite assign_all_id.
  rewrite (first_customer_Some _ _ _
             (query_customer_commit s s1 id c _ Q Enew K)).
  rewrite (assign_all_twice body c D).
  apply commit_customer_inr in K as (_ & A & ->).
  unfold commit_customer. rewrite update_fits_refl. simpl.
  unfold update_accepted in *.
  apply andb_true_iff in A as [A _]. apply andb_true_iff in A as [A _].
  rewrite A, !json_eqb_refl. simpl. rewrite Enew, Eid.
  now rewrite (map_rewrite_twice Customer.id id _ _ Enew).
Qed.

(** X15.  Items are only ever appended: after any sequence of requests,
    from any store, the item table starts with the rows it had, unchanged
    and in the same order. *)
Theorem items_append_only (s : db) (rs : list request) :
  exists l, items (serve s rs) = items s ++ l.
Proof.
  revert s. induction rs as [|r rs IH]; intros s.
  - exists []. simpl. now rewrite app_nil_r.
  - rewrite serve_cons. destruct (IH (fst (dispatch s r))) as (l & ->).
    destruct (dispatch_items_grow s r) as (l' & ->).
    exists (l' ++ l). now rewrite app_assoc.
Qed.

End Append.

(* ================================================================== *)
(** * Decided orders *)
(* ================================================================== *)

Lemma find_rewrite_same {A : Type} (key : A -> Z) (new : A) (l : list A) :
  find (fun a => key a =? key new) l <> None ->
  find (fun a => key a =? key new)
    (map (fun a => if key a =? key new then new else a) l)
  = Some new.
Proof.
  induction l as [|a l IH]; simpl; [congruence|].
  destruct (key a =? key new) eqn:E; simpl.
  - now rewrite Z.eqb_refl.
  - now rewrite E.
Qed.

(** No write takes a decided order back to "Solicitada". *)
Lemma write_decided (s s' : db) (id : Z) :
  write s s' -> decided s id = true -> decided s' id = true.
Proof.
  intros W. unfold decided.
  destruct W as [| n e p a t s' c H | old new s' Hin Eid H | c s' H
                 | cid date s' o' Rcid Hcid H | o' state Ho' Hst
                 | oid w l s' i Roid Hoid H].
  - auto.
  - now apply add_customer_inr in H as (-> & _ & _ & _ & _ & ->).
  - now apply commit_customer_inr in H as (_ & _ & ->).
  - unfold remove_customer in H.
    destruct (orders_of s (Customer.id c)); [|discriminate].
    now injection H as <-.
  - unfold add_order in H. destruct (negb (is_null date)); [|discriminate].
    injection H as <- <-. unfold query_order, first_order. simpl.
    destruct (in_range id); [|auto]. rewrite find_snoc.
    now destruct (find _ (orders s)).
  - unfold query_order, first_order, commit_order. simpl.
    destruct (in_range id); [|auto].
    destruct (Z.eq_dec id (Order.id o')) as [->|N].
    + intros H.
      rewrite (find_rewrite_same Order.id (with_state o' state)).
      * simpl. destruct Hst as [-> | ->]; reflexivity.
      * simpl. destruct (find _ (orders s)); [discriminate|congruence].
    + now rewrite (find_rewrite_other Order.id (with_state o' state) id).
  - unfold add_item in H.
    destruct (negb (is_null w) && negb (is_null l)); [|discriminate].
    now injection H as <- <-.
Qed.

(** Where keys are distinct, the rewrite of a row of the table by a row
    with the same columns [f] leaves the columns [f] of the table as they
    are. *)
Lemma map_rewrite_columns {A B : Type} (key : A -> Z) (f : A -> B)
  (old new : A) (l : list A) :
  NoDup (map key l) -> In old l ->
  key new = key old -> f new = f old ->
  map f (map (fun a => if key a =? key new then new else a) l) = map f l.
Proof.
  intros N Hin Ek Ef. rewrite map_map. apply map_ext_in. intros a Ha.
  destruct (key a =? key new) eqn:E; [|reflexivity].
  apply Z.eqb_eq in E.
  assert (a = old) as -> by (apply (NoDup_map_eq key l); congruence).
  assumption.
Qed.

(** A write removes no order and leaves what was placed as it was. *)
Lemma write_placed (s s' : db) :
  consistent s -> write s s' ->
  exists l, map placed (orders s') = map placed (orders s) ++ l.
Proof.
  intros C W.
  destruct W as [| n e p a t s' c H | old new s' Hin Eid H | c s' H
                 | cid date s' o' Rcid Hcid H | o' state Ho' Hst
                 | oid w l s' i Roid Hoid H].
  - exists []. now rewrite app_nil_r.
  - apply add_customer_inr in H as (-> & _ & _ & _ & _ & ->). exists []. now rewrite app_nil_r.
  - apply commit_customer_inr in H as (_ & _ & ->). exists []. now rewrite app_nil_r.
  - unfold remove_customer in H.
    destruct (orders_of s (Customer.id c)); [|discriminate].
    injection H as <-. exists []. now rewrite app_nil_r.
  - unfold add_order in H. destruct (negb (is_null date)); [|discriminate].
    injection H as <- <-. simpl. rewrite map_app. eauto.
  - exists []. rewrite app_nil_r. simpl.
    apply (map_rewrite_columns Order.id placed o' (with_state o' state));
      auto. apply (order_keys _ C).
  - unfold add_item in H.
    destruct (negb (is_null w) && negb (is_null l)); [|discriminate].
    injection H as <- <-. exists []. now rewrite app_nil_r.
Qed.

Section Frozen.
Context {V : Validators} {engine : Engine}.

(** A request adds no item to an order that is not "Solicitada". *)
Lemma dispatch_items_of (s : db) (r : request) (id : Z) :
  in_state s id Solicitada = false ->
  items_of (fst (dispatch s r)) id = items_of s id.
Proof.
  intros H. unfold items_of.
  destruct r; try (rewrite dispatch_items by discriminate; reflexivity).
  simpl.
  destruct (create_item_outcome s id0 body)
    as [[-> _] | (i & E & Ei & _ & R)]; [reflexivity|].
  rewrite E, filter_app. simpl. rewrite Ei.
  destruct (id0 =? id) eqn:K; [|apply app_nil_r].
  apply Z.eqb_eq in K. congruence.
Qed.

Lemma decided_not_requested (s : db) (id : Z) :
  decided s id = true -> in_state s id Solicitada = false.
Proof.
  unfold decided, in_state. destruct (query_order s id); [|discriminate].
  apply negb_true_iff.
Qed.

(** X16.  An order that has left "Solicitada" never returns to it, and
    its items are frozen: whatever requests follow, also further PUT
    /order/<id>/<sw>, GET /order/<id> lists the items it listed. *)
Theorem decided_order_frozen (s : db) (id : Z) (rs : list request) :
  decided s id = true ->
  decided (serve s rs) id = true
  /\ items_of (serve s rs) id = items_of s id
  /\ forall body,
       is_ok (snd (create_item (serve s rs) id body)) = false
       /\ (load_errors ItemSchema false body = [] ->
           classify (snd (create_item (serve s rs) id body))
           = Some InvalidStateError).
Proof.
  intros D.
  assert (decided (serve s rs) id = true
          /\ items_of (serve s rs) id = items_of s id) as [D' I].
  { revert s D. induction rs as [|r rs IH]; intros s D; [auto|].
    rewrite serve_cons.
    destruct (IH (fst (dispatch s r))) as [D1 I1].
    - eapply write_decided; [apply dispatch_write | exact D].
    - split; [assumption|]. rewrite I1.
      now apply dispatch_items_of, decided_not_requested. }
  split; [assumption|]. split; [assumption|]. intros body.
  unfold decided in D'. unfold create_item.
  destruct (query_order (serve s rs) id) as [o|] eqn:Q; [|discriminate].
  rewrite (first_order_Some _ _ _ Q).
  destruct (load_errors ItemSchema false body); simpl.
  - unfold Solicitada in D'. rewrite D'. simpl. split; reflexivity.
  - split; [reflexivity|discriminate].
Qed.

(** X17.  After any sequence of requests served from the empty store,
    whatever requests follow, the order table starts with the orders it
    had, each with the identifier, the customer and the date it was placed
    with: no request removes an order or moves it to another customer. *)
Theorem orders_keep_what_was_placed (rs rs' : list request) :
  let s := serve create_all rs in
  exists l,
    map placed (orders (serve s rs')) = map placed (orders s) ++ l.
Proof.
  intros s.
  pose proof (serve_consistent rs create_all create_all_consistent) as C.
  fold s in C. clearbody s. revert s C.
  induction rs' as [|r rs' IH]; intros s C.
  - exists []. simpl. now rewrite app_nil_r.
  - rewrite serve_cons.
    destruct (IH (fst (dispatch s r)) (dispatch_consistent s r C)) as (l & ->).
    destruct (write_placed s _ C (dispatch_write s r)) as (l' & ->).
    exists (l' ++ l). now rewrite app_assoc.
Qed.

End Frozen.

(* ================================================================== *)
(** * Persisted rows pass their schemas *)
(* ================================================================== *)

Section Shaped.
Context {V : Validators} {engine : Engine}.

(** A value that a load accepted passes its field. *)
Lemma loaded_passes (s : schema) (partial : bool) (data : dict) (k : string)
  (f : field) (v : json) :
  (forall fs, f <> fields.Nested fs) ->
  load_errors s partial data = [] ->
  In (k, f) s ->
  dict_get data k = Some v ->
  passes f v = true.
Proof.
  intros NN L HI E. pose proof (load_errors_field s partial data k f L HI) as F.
  rewrite E in F. unfold passes.
  destruct f as [r m| |fmt r|r| |fs];
    try (destruct v; simpl in *; try discriminate; now rewrite ?F).
  exfalso. now apply (NN fs).
Qed.

Lemma valid_customer_columns (c : Customer.t) :
  valid_customer c = true <->
  forall k f v, In (k, f) CustomerSchema -> getattr c k = Some v ->
                passes f v = true.
Proof.
  unfold valid_customer. split.
  - intros H k f v HI G.
    repeat (apply andb_true_iff in H as [H ?]).
    simpl in HI.
    destruct HI as [[= <- <-]|[[= <- <-]|[[= <- <-]|[[= <- <-]|[[= <- <-]|
               [[= <- <-]|[]]]]]]]; simpl in G; try discriminate;
      injection G as <-; assumption.
  - intros H. repeat (apply andb_true_iff; split).
    + apply (H "name"); [simpl; tauto | reflexivity].
    + apply (H "email"); [simpl; tauto | reflexivity].
    + apply (H "phone"); [simpl; tauto | reflexivity].
    + apply (H "address"); [simpl; tauto | reflexivity].
    + apply (H "nationality"); [simpl; tauto | reflexivity].
Qed.

Lemma getattr_column (c : Customer.t) (k : string) (v : json) :
  getattr c k = Some v -> In k columns.
Proof.
  unfold getattr, columns. string_cases; simpl; try tauto. discriminate.
Qed.

Lemma customer_field_flat (k : string) (f : field) :
  In (k, f) CustomerSchema -> forall fs, f <> fields.Nested fs.
Proof.
  simpl. intros [[= <- <-]|[[= <- <-]|[[= <- <-]|[[= <- <-]|[[= <- <-]|
           [[= <- <-]|[]]]]]]]; discriminate.
Qed.

(** An accepted update leaves a valid customer valid. *)
Lemma assign_all_valid (c : Customer.t) (body : dict) :
  is_dict body ->
  load_errors CustomerSchema true body = [] ->
  valid_customer c = true ->
  valid_customer (assign_all c body) = true.
Proof.
  intros D L H. rewrite valid_customer_columns in *. intros k f v HI G.
  pose proof (getattr_column _ _ _ G) as Hk.
  rewrite (assign_all_column body c k D Hk) in G.
  destruct (dict_get body k) as [w|] eqn:E.
  - injection G as <-.
    apply (loaded_passes CustomerSchema true body k f w); auto.
    now apply (customer_field_flat k).
  - now apply (H k).
Qed.

Lemma Forall_rewrite {A : Type} (P : A -> Prop) (key : A -> Z) (k : Z)
  (new : A) (l : list A) :
  Forall P l -> P new ->
  Forall P (map (fun a => if key a =? k then new else a) l).
Proof.
  intros F N. rewrite Forall_forall in *. intros x Hx.
  apply in_map_iff in Hx as (a & <- & Ha). destruct (key a =? k); auto.
Qed.

Lemma Forall_filter {A : Type} (P : A -> Prop) (p : A -> bool) (l : list A) :
  Forall P l -> Forall P (filter p l).
Proof.
  rewrite !Forall_forall. intros F x Hx. apply filter_In in Hx as [Hx _]. auto.
Qed.

(** Each view function leaves the tables shaped, when the body it reads
    is a dictionary. *)
Lemma dispatch_shaped (s : db) (r : request) :
  match body_of r with Some body => is_dict body | None => True end ->
  shaped s -> shaped (fst (dispatch s r)).
Proof.
  intros D (Sc & So & Si). destruct r; simpl in *.
  - unfold create_customer, subscript, add_customer.
    destruct (load_errors CustomerSchema false body) eqn:L;
      [|now repeat split].
    destruct (dict_get body "email") as [e|] eqn:Ee; [|now repeat split].
    destruct (taken Customer.email e (customers s)); [now repeat split|].
    destruct (dict_get body "phone") as [p|] eqn:Ep; [|now repeat split].
    destruct (taken Customer.phone p (customers s)); [now repeat split|].
    destruct (dict_get body "name") as [n|] eqn:En; [|now repeat split].
    destruct (dict_get body "address") as [a|] eqn:Ea; [|now repeat split].
    destruct (dict_get body "nationality") as [t|] eqn:Et; [|now repeat split].
    destruct (negb (fits _)); [now repeat split|].
    destruct (customer_not_null _ && _ && _); [|now repeat split].
    simpl. repeat split; auto. apply Forall_snoc; [assumption|].
    unfold valid_customer. simpl.
    rewrite (loaded_passes CustomerSchema false body "name" _ n); auto;
      [|discriminate | simpl; tauto].
    rewrite (loaded_passes CustomerSchema false body "email" _ e); auto;
      [|discriminate | simpl; tauto].
    rewrite (loaded_passes CustomerSchema false body "phone" _ p); auto;
      [|discriminate | simpl; tauto].
    rewrite (loaded_passes CustomerSchema false body "address" _ a); auto;
      [|discriminate | simpl; tauto].
    rewrite (loaded_passes CustomerSchema false body "nationality" _ t); auto;
      [discriminate | simpl; tauto].
  - now repeat split.
  - unfold update_customer, commit_customer.
    destruct (first_customer_cases s id)
      as [(_ & -> & _) | [(_ & -> & _) | (c & _ & -> & Q)]];
      [now repeat split | now repeat split |].
    destruct (load_errors CustomerSchema true body) eqn:L; [|now repeat split].
    destruct (negb (update_fits _ _)); [now repeat split|].
    destruct (update_accepted s c (assign_all c body)); [|now repeat split].
    simpl. repeat split; auto. apply Forall_rewrite; [assumption|].
    apply assign_all_valid; auto.
    apply query_customer_found in Q as [Hc _].
    rewrite Forall_forall in Sc. now apply Sc.
  - unfold delete_customer, remove_customer.
    destruct (first_customer s id) as [|[c|]];
      [now repeat split | | now repeat split].
    destruct (orders_of s (Customer.id c)); [|now repeat split].
    simpl. repeat split; auto. now apply Forall_filter.
  - unfold create_order, subscript, add_order.
    destruct (first_customer s id) as [|[c|]];
      [now repeat split | | now repeat split].
    destruct (load_errors OrderSchema false body) eqn:L; [|now repeat split].
    destruct (dict_get body "date") as [d|] eqn:Ed; [|now repeat split].
    destruct (negb (is_null d)); [|now repeat split].
    simpl. repeat split; auto. apply Forall_snoc; [assumption|].
    unfold valid_order. simpl.
    apply (loaded_passes OrderSchema false body "date"); auto;
      [discriminate | simpl; tauto].
  - now repeat split.
  - unfold update_order.
    destruct (first_order_cases s id)
      as [(_ & -> & _) | [(_ & -> & _) | (o & _ & -> & Q)]];
      [now repeat split | now repeat split |].
    apply query_order_found in Q as [Ho _].
    assert (valid_order o = true) as Vo
      by (rewrite Forall_forall in So; now apply So).
    destruct (sw == "1"); [|destruct (sw == "0")]; simpl;
      repeat split; auto; now apply Forall_rewrite.
  - unfold create_item, subscript, add_item.
    destruct (first_order s id) as [|[o|]];
      [now repeat split | | now repeat split].
    destruct (load_errors ItemSchema false body) eqn:L; [|now repeat split].
    destruct (negb (Order.state o == "Solicitada")); [now repeat split|].
    destruct (dict_get body "width") as [w|] eqn:Ew; [|now repeat split].
    destruct (dict_get body "length") as [l|] eqn:El; [|now repeat split].
    destruct (negb (is_null w) && negb (is_null l)); [|now repeat split].
    simpl. repeat split; auto. apply Forall_snoc; [assumption|].
    unfold valid_item. simpl.
    rewrite (loaded_passes ItemSchema false body "width" _ w); auto;
      [|discriminate | simpl; tauto].
    apply (loaded_passes ItemSchema false body "length"); auto;
      [discriminate | simpl; tauto].
  - unfold get_order. destruct (first_order s id) as [|[o|]]; now repeat split.
Qed.

(** X18.  When the bodies of the requests are dictionaries, every row
    persisted by a sequence of requests served from the empty store passes
    the fields its schema declares: names have three characters or more,
    phones ten or more, emails are valid addresses, dates are in the format
    and measures are numbers, also after updates. *)
Theorem persisted_rows_pass_schema (rs : list request) :
  dict_bodies rs ->
  let s := serve create_all rs in
  forallb valid_customer (customers s) = true
  /\ forallb valid_order (orders s) = true
  /\ forallb valid_item (items s) = true.
Proof.
  intros D s.
  assert (shaped s) as (Sc & So & Si).
  { subst s. assert (shaped create_all) as S0 by (repeat split; constructor).
    revert S0. generalize create_all as s.
    induction D as [|r rs Hr D IH]; intros s S0; [exact S0|].
    rewrite serve_cons. apply IH. now apply dispatch_shaped. }
  rewrite !forallb_forall. rewrite Forall_forall in Sc, So, Si. auto.
Qed.

End Shaped.

(* ================================================================== *)
(** * Duplicates *)
(* ================================================================== *)

Section More.
Context {V : Validators} {engine : Engine}.

(** X19.  POST /customers answers with a duplicate message exactly when
    the body passed the validation, carries an email, and the email or the
    phone is that of a persisted customer; the email is checked first. *)
Theorem create_customer_conflict_iff (s : db) (body : dict) :
  classify (snd (create_customer s body)) = Some ConflictError <->
  load_errors CustomerSchema false body = []
  /\ exists email,
       dict_get body "email" = Some email
       /\ (taken Customer.email email (customers s) = true
           \/ exists phone,
                dict_get body "phone" = Some phone
                /\ taken Customer.phone phone (customers s) = true).
Proof.
  unfold create_customer, subscript. split.
  - destruct (load_errors CustomerSchema false body) eqn:L; [|discriminate].
    destruct (dict_get body "email") as [e|]; [|discriminate].
    intros H. split; [reflexivity|]. exists e. split; [reflexivity|].
    destruct (taken Customer.email e (customers s)); [now left|]. right.
    destruct (dict_get body "phone") as [p|]; [|discriminate].
    exists p. split; [reflexivity|].
    destruct (taken Customer.phone p (customers s)); [reflexivity|].
    exfalso. revert H.
    destruct (dict_get body "name"); [|discriminate].
    destruct (dict_get body "address"); [|discriminate].
    destruct (dict_get body "nationality"); [|discriminate].
    destruct (add_customer _ _ _ _ _ _) as [?|[? ?]]; discriminate.
  - intros (L & e & Ee & [T | (p & Ep & T)]); rewrite L, Ee.
    + now rewrite T.
    + destruct (taken Customer.email e (customers s)); [reflexivity|].
      now rewrite Ep, T.
Qed.




End More.

(* ================================================================== *)
(** * What a request leaves alone *)
(* ================================================================== *)

Lemma add_customer_orders (s s' : db) (n e p a t : json) (c : Customer.t) :
  add_customer s n e p a t = inr (s', c) ->
  orders s' = orders s /\ customers s' = customers s ++ [c].
Proof.
  intros H. now apply add_customer_inr in H as (_ & _ & _ & _ & _ & ->).
Qed.

Lemma commit_customer_orders (s s' : db) (old new : Customer.t) :
  commit_customer s old new = inr s' ->
  orders s' = orders s
  /\ customers s'
     = map (fun c => if Customer.id c =? Customer.id old then new else c)
         (customers s).
Proof.
  intros H. now apply commit_customer_inr in H as (_ & _ & ->).
Qed.

Lemma remove_customer_orders (s s' : db) (c : Customer.t) :
  remove_customer s c = Some s' ->
  orders s' = orders s
  /\ customers s' = other_customers s (Customer.id c).
Proof.
  unfold remove_customer. case_match; [|discriminate]. now intros [= <-].
Qed.

Lemma add_order_customers (s s' : db) (id : Z) (date : json) (state : string)
  (o : Order.t) :
  add_order s id date state = Some (s', o) ->
  customers s' = customers s /\ orders s' = orders s ++ [o].
Proof.
  unfold add_order. case_match; [|discriminate]. now intros [= <- <-].
Qed.

Lemma add_item_tables (s s' : db) (id : Z) (w l : json) (i : Item.t) :
  add_item s id w l = Some (s', i) ->
  customers s' = customers s /\ orders s' = orders s.
Proof.
  unfold add_item. case_match; [|discriminate]. now intros [= <- <-].
Qed.

Ltac store_frames :=
  repeat match goal with
    | H : add_customer _ _ _ _ _ _ = inr _ |- _ =>
        apply add_customer_orders in H as [? ?]
    | H : commit_customer _ _ _ = inr _ |- _ =>
        apply commit_customer_orders in H as [? ?]
    | H : remove_customer _ _ = Some _ |- _ =>
        apply remove_customer_orders in H as [? ?]
    | H : add_order _ _ _ _ = Some _ |- _ =>
        apply add_order_customers in H as [? ?]
    | H : add_item _ _ _ _ = Some _ |- _ =>
        apply add_item_tables in H as [? ?]
    end.

Section Frames.
Context {V : Validators} {engine : Engine}.

(** X21.  The row of an existing order is changed by nothing but a PUT
    /order/<id>/<sw> for its own identifier: after any other request the
    order is found as it was. *)
Theorem order_changed_only_by_its_put (s : db) (r : request) (id : Z)
  (order : Order.t) :
  query_order s id = Some order ->
  (forall sw, r <> PUT_order id sw) ->
  query_order (fst (dispatch s r)) id = Some order.
Proof.
  intros Q N. pose proof (proj1 (query_order_find _ _ _) Q) as [R F].
  assert (forall s', orders s' = orders s -> query_order s' id = Some order)
    as Same
    by (intros s' E; unfold query_order, first_order in *; now rewrite E).
  destruct r; simpl.
  - unfold create_customer, subscript.
    repeat case_match; simpl; try assumption. store_frames. auto.
  - assumption.
  - unfold update_customer.
    repeat case_match; simpl; try assumption. store_frames. auto.
  - unfold delete_customer.
    repeat case_match; simpl; try assumption. store_frames. auto.
  - unfold create_order, subscript.
    repeat case_match; simpl; try assumption. store_frames.
    apply query_order_find. split; [assumption|].
    match goal with H : orders _ = _ ++ _ |- _ => rewrite H end.
    now rewrite find_snoc, F.
  - assumption.
  - destruct (Z.eq_dec id0 id) as [->|Nid]; [now elim (N sw)|].
    unfold update_order.
    destruct (first_order_cases s id0)
      as [(_ & -> & _) | [(_ & -> & _) | (o & _ & -> & Q0)]];
      [assumption | assumption |].
    apply query_order_found in Q0 as [_ E0].
    assert (forall state,
              query_order (commit_order s (with_state o state)) id = Some order)
      as K.
    { intros state. apply query_order_find. split; [assumption|].
      unfold commit_order. simpl.
      rewrite (find_rewrite_other Order.id (with_state o state) id);
        [assumption | simpl; congruence]. }
    repeat case_match; simpl; auto.
  - unfold create_item, subscript.
    repeat case_match; simpl; try assumption. store_frames. auto.
  - unfold get_order. now destruct (first_order s id0) as [|[|]].
Qed.

(** X22.  The record of an existing customer is changed by nothing but a
    PUT or a DELETE /customers/<id> for its own identifier: after any other
    request, registrations and requests for other customers among them, the
    customer is found as it was. *)
Theorem customer_changed_only_by_its_routes (s : db) (r : request) (id : Z)
  (customer : Customer.t) :
  query_customer s id = Some customer ->
  (forall body, r <> PUT_customers id body) ->
  r <> DELETE_customers id ->
  query_customer (fst (dispatch s r)) id = Some customer.
Proof.
  intros Q Np Nd. pose proof (proj1 (query_customer_find _ _ _) Q) as [R F].
  assert (forall s', customers s' = customers s ->
                     query_customer s' id = Some customer)
    as Same
    by (intros s' E; unfold query_customer, first_customer in *;
        now rewrite E).
  destruct r; simpl.
  - unfold create_customer, subscript.
    repeat case_match; simpl; try assumption. store_frames.
    apply query_customer_find. split; [assumption|].
    match goal with H : customers _ = _ ++ _ |- _ => rewrite H end.
    now rewrite find_snoc, F.
  - assumption.
  - destruct (Z.eq_dec id0 id) as [->|Nid]; [now elim (Np body)|].
    unfold update_customer.
    destruct (first_customer_cases s id0)
      as [(_ & -> & _) | [(_ & -> & _) | (c & _ & -> & Q0)]];
      [assumption | assumption |].
    apply query_customer_found in Q0 as [_ E0].
    repeat case_match; simpl; try assumption. store_frames.
    apply query_customer_find. split; [assumption|].
    match goal with H : customers _ = map _ _ |- _ => rewrite H end.
    rewrite <- (assign_all_id body c).
    rewrite (find_rewrite_other Customer.id (assign_all c body) id);
      [assumption | rewrite assign_all_id; congruence].
  - destruct (Z.eq_dec id0 id) as [->|Nid]; [congruence|].
    unfold delete_customer.
    destruct (first_customer_cases s id0)
      as [(_ & -> & _) | [(_ & -> & _) | (c & _ & -> & Q0)]];
      [assumption | assumption |].
    apply query_customer_found in Q0 as [_ E0].
    repeat case_match; simpl; try assumption. store_frames.
    apply query_customer_find. split; [assumption|].
    unfold other_customers in *.
    match goal with H : customers _ = filter _ _ |- _ => rewrite H end.
    rewrite find_filter_other; [assumption | congruence].
  - unfold create_order, subscript.
    repeat case_match; simpl; try assumption. store_frames. auto.
  - assumption.
  - unfold update_order. repeat case_match; simpl; assumption.
  - unfold create_item, subscript.
    repeat case_match; simpl; try assumption. store_frames. auto.
  - unfold get_order. now destruct (first_order s id0) as [|[|]].
Qed.

End Frames.

(* ================================================================== *)
(** * Instances of the integrity theorems *)
(* ================================================================== *)

Lemma item_order_resolves_witness :
  In item1 (items (serve create_all scenario))
  /\ exists o,
       query_order (serve create_all scenario) (Item.order_id item1) = Some o
       /\ Order.id o = Item.order_id item1.
Proof.
  assert (In item1 (items (serve create_all scenario))) as H by now left.
  split; [exact H|]. exact (item_order_resolves scenario item1 H).
Defined.

Lemma order_customer_resolves_witness :
  In (with_state order1 "Aprobada") (orders (serve create_all scenario))
  /\ exists c,
       query_customer (serve create_all scenario)
         (Order.customer_id (with_state order1 "Aprobada")) = Some c
       /\ Customer.id c = Order.customer_id (with_state order1 "Aprobada").
Proof.
  assert (In (with_state order1 "Aprobada")
            (orders (serve create_all scenario))) as H by now left.
  split; [exact H|].
  exact (order_customer_resolves scenario (with_state order1 "Aprobada") H).
Defined.

Lemma email_phone_unique_witness :
  In ana (customers (serve create_all [POST_customers ana_body;
                                       POST_customers bea_body]))
  /\ (Customer.email ana = Customer.email ana
      \/ Customer.phone ana = Customer.phone ana)
  /\ ana = ana.
Proof.
  assert (In ana (customers (serve create_all [POST_customers ana_body;
                                               POST_customers bea_body])))
    as H by now left.
  split; [exact H|]. split; [now left|].
  exact (email_phone_unique _ ana ana H H (or_introl eq_refl)).
Defined.

Lemma order_state_vocabulary_witness :
  In (with_state order1 "Aprobada") (orders (serve create_all scenario))
  /\ (Order.state (with_state order1 "Aprobada") = Solicitada
      \/ Order.state (with_state order1 "Aprobada") = Aprobada
      \/ Order.state (with_state order1 "Aprobada") = Anulada).
Proof.
  assert (In (with_state order1 "Aprobada")
            (orders (serve create_all scenario))) as H by now left.
  split; [exact H|].
  exact (order_state_vocabulary scenario (with_state order1 "Aprobada") H).
Defined.

Lemma refused_request_writes_nothing_witness :
  (is_ok (snd (dispatch approved (POST_item 1 item_body))) = false
   \/ is_get (POST_item 1 item_body) = true)
  /\ fst (dispatch approved (POST_item 1 item_body)) = approved.
Proof.
  split; [now left|].
  apply (refused_request_writes_nothing approved (POST_item 1 item_body)).
  now left.
Defined.


Lemma delete_customer_removes_witness :
  delete_customer two_customers 2
  = (mkdb [ana] [] [] 3 1 1, Ok (customer_schema_dump bea))
  /\ exists c,
       query_customer two_customers 2 = Some c
       /\ customer_schema_dump bea = customer_schema_dump c
       /\ query_customer (mkdb [ana] [] [] 3 1 1) 2 = None
       /\ (forall j, j <> 2 ->
             query_customer (mkdb [ana] [] [] 3 1 1) j
             = query_customer two_customers j)
       /\ orders (mkdb [ana] [] [] 3 1 1) = orders two_customers
       /\ items (mkdb [ana] [] [] 3 1 1) = items two_customers.
Proof.
  split; [reflexivity|].
  apply (delete_customer_removes two_customers (mkdb [ana] [] [] 3 1 1) 2).
  reflexivity.
Defined.

Lemma customer_with_order_stays_witness :
  In (with_state order1 "Aprobada") (orders (serve create_all scenario))
  /\ (exists c,
         query_customer
           (serve (serve create_all scenario) [DELETE_customers 1]) 1 = Some c)
  /\ orders_of (serve (serve create_all scenario) [DELETE_customers 1]) 1 <> []
  /\ delete_customer (serve (serve create_all scenario) [DELETE_customers 1]) 1
     = (serve (serve create_all scenario) [DELETE_customers 1],
        Unhandled IntegrityError).
Proof.
  assert (In (with_state order1 "Aprobada")
            (orders (serve create_all scenario))) as H by now left.
  split; [exact H|].
  exact (customer_with_order_stays scenario [DELETE_customers 1]
           (with_state order1 "Aprobada") H).
Defined.


Lemma create_order_then_get_witness :
  create_order (serve create_all [POST_customers ana_body]) 1 order_body
  = (ordered, Ok (order_schema_dump ordered order1))
  /\ exists new_id date,
       member "id" (order_schema_dump ordered order1) = Some (JInt new_id)
       /\ ~ In new_id (order_ids (serve create_all [POST_customers ana_body]))
       /\ dict_get order_body "date" = Some date
       /\ member "date" (order_schema_dump ordered order1)
          = Some (dump_date "%Y-%m-%d" date)
       /\ (in_range new_id = true ->
           get_order ordered new_id
           = (ordered,
              Ok (JDict [ ("id", JInt new_id);
                          ("customer_id", JInt 1);
                          ("date", dump_datetime date);
                          ("state", JStr "Solicitada");
                          ("items", JList []) ]))).
Proof.
  split; [reflexivity|].
  apply (create_order_then_get [POST_customers ana_body] 1 order_body).
  reflexivity.
Defined.

Lemma create_item_then_get_witness :
  create_item stocked 1 item_body
  = (fst (create_item stocked 1 item_body),
     Ok (item_schema_dump stocked (Item.mk 2 1 (JFloat 20 (-1)) (JFloat 30 (-1)))))
  /\ exists width length view view' listed listed',
       dict_get item_body "width" = Some width
       /\ dict_get item_body "length" = Some length
       /\ member "width"
            (item_schema_dump stocked
               (Item.mk 2 1 (JFloat 20 (-1)) (JFloat 30 (-1))))
          = Some (dump_float width)
       /\ member "length"
            (item_schema_dump stocked
               (Item.mk 2 1 (JFloat 20 (-1)) (JFloat 30 (-1))))
          = Some (dump_float length)
       /\ member "order_id"
            (item_schema_dump stocked
               (Item.mk 2 1 (JFloat 20 (-1)) (JFloat 30 (-1))))
          = Some (JInt 1)
       /\ get_order stocked 1 = (stocked, Ok view)
       /\ get_order (fst (create_item stocked 1 item_body)) 1
          = (fst (create_item stocked 1 item_body), Ok view')
       /\ member "items" view = Some (JList listed)
       /\ member "items" view' = Some (JList listed')
       /\ Permutation listed'
            (item_schema_dump stocked
               (Item.mk 2 1 (JFloat 20 (-1)) (JFloat 30 (-1))) :: listed)
       /\ forall j, j <> 1 ->
            items_of (fst (create_item stocked 1 item_body)) j
            = items_of stocked j.
Proof.
  split; [reflexivity|].
  apply (create_item_then_get stocked _ 1 item_body). reflexivity.
Defined.

Lemma get_order_view_witness :
  serve create_all scenario = approved
  /\ in_range 1 = true
  /\ query_order approved 1 = Some (with_state order1 "Aprobada")
  /\ exists customer listed,
       query_customer approved 1 = Some customer
       /\ Permutation listed (items_of approved 1)
       /\ get_order approved 1
          = (approved,
             Ok (JDict
                   [ ("id", JInt 1);
                     ("customer_id", JInt 1);
                     ("date", dump_datetime (JStr "2024-01-10"));
                     ("state", JStr "Aprobada");
                     ("items",
                       JList
                         (map
                            (fun i =>
                               JDict
                                 [ ("id", JInt (Item.id i));
                                   ("order_id", JInt 1);
                                   ("width", dump_float (Item.width i));
                                   ("length", dump_float (Item.length i));
                                   ("order",
                                     JDict
                                       [ ("id", JInt 1);
                                         ("customer_id", JInt 1);
                                         ("date",
                                           dump_date "%Y-%m-%d"
                                             (JStr "2024-01-10"));
                                         ("state", JStr "Aprobada");
                                         ("customer",
                                           customer_schema_dump customer) ]) ])
                            listed)) ])).
Proof.
  assert (serve create_all scenario = approved) as E by reflexivity.
  split; [exact E|]. split; [reflexivity|]. split; [reflexivity|].
  pose proof (get_order_view scenario 1 eq_refl) as H.
  cbv zeta in H. rewrite E in H. exact H.
Defined.

Lemma update_customer_idempotent_witness :
  is_dict rename
  /\ update_customer stocked 1 rename
     = (fst (update_customer stocked 1 rename),
        Ok (customer_schema_dump (assign_all ana rename)))
  /\ update_customer (fst (update_customer stocked 1 rename)) 1 rename
     = (fst (update_customer stocked 1 rename),
        Ok (customer_schema_dump (assign_all ana rename))).
Proof.
  assert (is_dict rename) as D.
  { unfold is_dict, keys. simpl.
    repeat constructor; simpl; intuition discriminate. }
  split; [exact D|]. split; [reflexivity|].
  apply (update_customer_idempotent stocked _ 1 rename); [exact D|reflexivity].
Defined.

Lemma decided_order_frozen_witness :
  decided approved 1 = true
  /\ decided (serve approved [POST_item 1 item_body; PUT_order 1 "0"]) 1 = true
  /\ items_of (serve approved [POST_item 1 item_body; PUT_order 1 "0"]) 1
     = items_of approved 1
  /\ forall body,
       is_ok (snd (create_item
                     (serve approved [POST_item 1 item_body; PUT_order 1 "0"])
                     1 body)) = false
       /\ (load_errors ItemSchema false body = [] ->
           classify (snd (create_item
                            (serve approved
                               [POST_item 1 item_body; PUT_order 1 "0"])
                            1 body))
           = Some InvalidStateError).
Proof.
  split; [reflexivity|].
  apply (decided_order_frozen approved 1 [POST_item 1 item_body; PUT_order 1 "0"]).
  reflexivity.
Defined.

Lemma persisted_rows_pass_schema_witness :
  dict_bodies busy_day
  /\ forallb valid_customer (customers (serve create_all busy_day)) = true
  /\ forallb valid_order (orders (serve create_all busy_day)) = true
  /\ forallb valid_item (items (serve create_all busy_day)) = true.
Proof.
  assert (dict_bodies busy_day) as D.
  { unfold dict_bodies, busy_day, is_dict, keys. simpl.
    repeat constructor; simpl; intuition discriminate. }
  split; [exact D|]. exact (persisted_rows_pass_schema busy_day D).
Defined.




Lemma order_changed_only_by_its_put_witness :
  query_order stocked 1 = Some order1
  /\ (forall sw, POST_item 1 item_body <> PUT_order 1 sw)
  /\ query_order (fst (dispatch stocked (POST_item 1 item_body))) 1
     = Some order1.
Proof.
  split; [reflexivity|]. split; [discriminate|].
  apply (order_changed_only_by_its_put stocked (POST_item 1 item_body) 1 order1);
    [reflexivity | discriminate].
Defined.

Lemma customer_changed_only_by_its_routes_witness :
  query_customer two_customers 1 = Some ana
  /\ (forall body, DELETE_customers 2 <> PUT_customers 1 body)
  /\ DELETE_customers 2 <> DELETE_customers 1
  /\ query_customer (fst (dispatch two_customers (DELETE_customers 2))) 1
     = Some ana.
Proof.
  split; [reflexivity|]. split; [discriminate|]. split; [discriminate|].
  apply (customer_changed_only_by_its_routes two_customers
           (DELETE_customers 2) 1 ana);
    [reflexivity | discriminate | discriminate].
Defined.
